(** * Reverse-diffusion sampling of [stable_diffusion_tf/stable_diffusion.py]

    A shallow embedding of the [Text2Image] sampler: the timestep schedule,
    the alpha-cumulative-product lookup, the sinusoidal timestep embedding,
    classifier-free guidance and the DDIM step, together with the
    [generate] driver that threads them.

    Numeric model.  Python and tensor floats are idealised as real numbers
    ([R]); integers are [Z].  A tensor is the flat sequence of its
    elements, a one-dimensional array, so "same shape" reads "same number
    of elements".  An elementwise operation on two tensors of different
    sizes broadcasts a one-element operand, as numpy and TensorFlow do,
    and raises on every other mismatch; broadcasting along several axes
    is outside the model.
    The constant table is kept as exact decimals in [Q] and enters the
    real arithmetic through [Q2R].

    Identities that hold over the reals need not survive rounding.  The
    two arithmetic kernels of the sampler, the guidance combination and
    the DDIM step, are therefore embedded a second time in the program's
    own arithmetic (module [Ieee]: binary64 for Python floats, binary32
    for tensor elements, round to nearest even), where such identities
    are tested on concrete inputs. *)

From Stdlib Require Import String ZArith QArith Reals Qreals List Bool Lia Lra Sorted.
From Stdlib Require Import SpecFloat.
Import ListNotations.

Local Open Scope Z_scope.

(** ** Exceptions and results *)

Inductive exn : Type :=
| AssertionError        (* a failed [assert] *)
| IndexError            (* list index out of range *)
| ZeroDivisionError     (* [//] by zero, [np.arange] with step 0 *)
| ValueError            (* math domain error, numpy broadcast failure *)
| InvalidArgumentError. (* incompatible shapes of TensorFlow operands *)

Inductive Result (A : Type) : Type :=
| Ok (a : A)
| Raise (e : exn).
Arguments Ok {A} a.
Arguments Raise {A} e.

Definition rbind {A B} (r : Result A) (k : A -> Result B) : Result B :=
  match r with
  | Ok a => k a
  | Raise e => Raise e
  end.

Declare Scope result_scope.
Delimit Scope result_scope with result.
Notation "x <- r ;; k" := (rbind r (fun x => k))
  (at level 61, r at next level, right associativity) : result_scope.

(** A list comprehension whose element expression can raise. *)
Fixpoint rmap {A B} (f : A -> Result B) (l : list A) : Result (list B) :=
  match l with
  | [] => Ok []
  | a :: l' =>
      (b <- f a ;; bs <- rmap f l' ;; Ok (b :: bs))%result
  end.

(** ** Python and numpy primitives used by the sampler *)

Module Py.

(** [a // b] on integers: floor division, [ZeroDivisionError] on [b = 0]. *)
Definition floordiv (a b : Z) : Result Z :=
  if b =? 0 then Raise ZeroDivisionError else Ok (a / b).

(** [l[i]] on a list: negative indices count from the end. *)
Definition getitem {A} (l : list A) (i : Z) : Result A :=
  let n := Z.of_nat (length l) in
  let j := if i <? 0 then i + n else i in
  if (0 <=? j) && (j <? n) then
    match nth_error l (Z.to_nat j) with
    | Some a => Ok a
    | None => Raise IndexError
    end
  else Raise IndexError.

(** [l[:-1]] *)
Definition drop_last {A} (l : list A) : list A := removelast l.

(** [list(enumerate(l))] *)
Definition enumerate {A} (l : list A) : list (Z * A) :=
  combine (map Z.of_nat (seq 0 (length l))) l.

(** [l[::-1]] *)
Definition reversed {A} (l : list A) : list A := rev l.

(** [math.sqrt]: domain error below zero. *)
Definition sqrt (r : R) : Result R :=
  if Rlt_dec r 0 then Raise ValueError else Ok (R_sqrt.sqrt r).

(** [math.log]: domain error at and below zero. *)
Definition log (r : R) : Result R :=
  if Rle_dec r 0 then Raise ValueError else Ok (ln r).

End Py.

Module Np.

(** Number of elements of [np.arange(start, stop, step)] for integers:
    [ceil((stop - start) / step)], never negative. *)
Definition arange_len (start stop step : Z) : nat :=
  Z.to_nat (- ((start - stop) / step)).

(** [np.arange(start, stop, step)] on integers. *)
Definition arange (start stop step : Z) : Result (list Z) :=
  if step =? 0 then Raise ZeroDivisionError
  else Ok (map (fun i => start + Z.of_nat i * step)
               (seq 0 (arange_len start stop step))).

(** [np.repeat(a, n, axis=0)] on an array with leading axis of size 1,
    flattened: [n] copies of the row. *)
Definition repeat_rows {A} (row : list A) (n : nat) : list A :=
  concat (repeat row n).

End Np.

(** ** Tensors *)

Definition Tensor := list R.

Module T.
Local Open Scope R_scope.

(** Elementwise combination; [err] is raised on a size mismatch. *)
Fixpoint zip_with (err : exn) (f : R -> R -> R) (a b : Tensor)
  : Result Tensor :=
  match a, b with
  | [], [] => Ok []
  | x :: a', y :: b' =>
      (r <- zip_with err f a' b' ;; Ok (f x y :: r))%result
  | _, _ => Raise err
  end.

(** Elementwise combination of two one-dimensional arrays as numpy and
    TensorFlow perform it: operands of one size are combined position by
    position, a one-element operand is stretched to the size of the other
    (which may be empty), and any other pair of sizes raises [err]. *)
Definition broadcast (err : exn) (f : R -> R -> R) (a b : Tensor)
  : Result Tensor :=
  if Nat.eqb (length a) (length b) then zip_with err f a b
  else match a, b with
       | [x], _ => Ok (map (fun v => f x v) b)
       | _, [y] => Ok (map (fun v => f v y) a)
       | _, _ => Raise err
       end.

Definition add err := broadcast err Rplus.
Definition sub err := broadcast err Rminus.

(** scalar * tensor, tensor * scalar, tensor / scalar, tensor + scalar *)
Definition scale (s : R) (a : Tensor) : Tensor := map (fun v => s * v) a.
Definition scale_r (a : Tensor) (s : R) : Tensor := map (fun v => v * s) a.
Definition div_scalar (a : Tensor) (s : R) : Tensor := map (fun v => v / s) a.
Definition add_scalar (a : Tensor) (s : R) : Tensor := map (fun v => v + s) a.

(** Product of two one-dimensional numpy arrays, with broadcasting of a
    one-element operand. *)
Definition broadcast_mul (a b : Tensor) : Result Tensor :=
  if Nat.eqb (length a) (length b) then zip_with ValueError Rmult a b
  else match a, b with
       | [x], _ => Ok (scale x b)
       | _, [y] => Ok (scale_r a y)
       | _, _ => Raise ValueError
       end.

(** [np.clip(a, lo, hi)] *)
Definition clip (a : Tensor) (lo hi : R) : Tensor :=
  map (fun v => Rmin (Rmax v lo) hi) a.

(** [a.astype("uint8")] on values already inside [0, 255]. *)
Definition to_uint8 (a : Tensor) : list Z := map Int_part a.

End T.

(** ** Module constants *)

Definition MAX_TEXT_LEN : nat := 77.

Definition _TOKENS_UNCONDITIONAL : list Z :=
  [ 49406; 49407; 49407; 49407; 49407; 49407; 49407; 49407; 49407; 49407; 49407;
    49407; 49407; 49407; 49407; 49407; 49407; 49407; 49407; 49407; 49407; 49407;
    49407; 49407; 49407; 49407; 49407; 49407; 49407; 49407; 49407; 49407; 49407;
    49407; 49407; 49407; 49407; 49407; 49407; 49407; 49407; 49407; 49407; 49407;
    49407; 49407; 49407; 49407; 49407; 49407; 49407; 49407; 49407; 49407; 49407;
    49407; 49407; 49407; 49407; 49407; 49407; 49407; 49407; 49407; 49407; 49407;
    49407; 49407; 49407; 49407; 49407; 49407; 49407; 49407; 49407; 49407; 49407 ].

Definition _ALPHAS_CUMPROD : list Q :=
  [
    0.99915; 0.998296; 0.9974381; 0.9965762; 0.99571025; 0.9948404;
    0.9939665; 0.9930887; 0.9922069; 0.9913211; 0.9904313; 0.98953754;
    0.9886398; 0.9877381; 0.9868324; 0.98592263; 0.98500896; 0.9840913;
    0.9831696; 0.982244; 0.98131436; 0.9803808; 0.97944313; 0.97850156;
    0.977556; 0.9766064; 0.97565293; 0.9746954; 0.9737339; 0.9727684;
    0.97179896; 0.97082555; 0.96984816; 0.96886677; 0.9678814; 0.96689206;
    0.96589875; 0.9649015; 0.96390027; 0.9628951; 0.9618859; 0.96087277;
    0.95985574; 0.95883465; 0.9578097; 0.95678073; 0.95574784; 0.954711;
    0.95367026; 0.9526256; 0.9515769; 0.95052433; 0.94946784; 0.94840735;
    0.947343; 0.94627476; 0.9452025; 0.9441264; 0.9430464; 0.9419625;
    0.9408747; 0.939783; 0.9386874; 0.93758786; 0.9364845; 0.93537724;
    0.9342661; 0.9331511; 0.9320323; 0.9309096; 0.929783; 0.9286526;
    0.9275183; 0.9263802; 0.92523825; 0.92409253; 0.92294294; 0.9217895;
    0.92063236; 0.9194713; 0.9183065; 0.9171379; 0.91596556; 0.9147894;
    0.9136095; 0.91242576; 0.9112383; 0.9100471; 0.9088522; 0.9076535;
    0.9064511; 0.90524495; 0.9040351; 0.90282154; 0.9016043; 0.90038335;
    0.8991587; 0.8979304; 0.8966984; 0.89546275; 0.89422345; 0.8929805;
    0.89173394; 0.89048374; 0.88922995; 0.8879725; 0.8867115; 0.88544685;
    0.88417864; 0.88290685; 0.8816315; 0.88035256; 0.8790701; 0.87778413;
    0.8764946; 0.8752016; 0.873905; 0.87260497; 0.8713014; 0.8699944;
    0.86868393; 0.86737; 0.8660526; 0.8647318; 0.86340755; 0.8620799;
    0.8607488; 0.85941434; 0.8580765; 0.8567353; 0.8553907; 0.8540428;
    0.85269153; 0.85133696; 0.84997904; 0.84861785; 0.8472533; 0.8458856;
    0.8445145; 0.84314024; 0.84176266; 0.8403819; 0.8389979; 0.8376107;
    0.8362203; 0.83482677; 0.83343; 0.8320301; 0.8306271; 0.8292209;
    0.82781166; 0.82639927; 0.8249838; 0.82356524; 0.8221436; 0.82071894;
    0.81929123; 0.81786054; 0.8164268; 0.8149901; 0.8135504; 0.81210774;
    0.81066215; 0.8092136; 0.8077621; 0.80630773; 0.80485046; 0.8033903;
    0.80192727; 0.8004614; 0.79899275; 0.79752123; 0.7960469; 0.7945698;
    0.7930899; 0.79160726; 0.7901219; 0.7886338; 0.787143; 0.7856495;
    0.7841533; 0.78265446; 0.78115296; 0.7796488; 0.77814204; 0.7766327;
    0.7751208; 0.7736063; 0.77208924; 0.7705697; 0.7690476; 0.767523;
    0.7659959; 0.7644664; 0.76293445; 0.7614; 0.7598632; 0.75832397;
    0.75678235; 0.75523835; 0.75369203; 0.7521434; 0.75059247; 0.7490392;
    0.7474837; 0.7459259; 0.7443659; 0.74280363; 0.7412392; 0.7396726;
    0.7381038; 0.73653287; 0.7349598; 0.7333846; 0.73180735; 0.730228;
    0.7286466; 0.7270631; 0.7254777; 0.72389024; 0.72230077; 0.7207094;
    0.71911603; 0.7175208; 0.7159236; 0.71432453; 0.7127236; 0.71112084;
    0.7095162; 0.7079098; 0.7063016; 0.70469165; 0.70307994; 0.7014665;
    0.69985133; 0.6982345; 0.696616; 0.6949958; 0.69337404; 0.69175065;
    0.69012564; 0.6884991; 0.68687093; 0.6852413; 0.68361014; 0.6819775;
    0.6803434; 0.67870784; 0.6770708; 0.6754324; 0.6737926; 0.67215145;
    0.670509; 0.66886514; 0.66722; 0.6655736; 0.66392595; 0.662277;
    0.6606269; 0.65897554; 0.657323; 0.65566933; 0.6540145; 0.6523586;
    0.6507016; 0.6490435; 0.64738435; 0.6457241; 0.64406294; 0.6424008;
    0.64073765; 0.63907355; 0.63740855; 0.6357426; 0.6340758; 0.6324082;
    0.6307397; 0.6290704; 0.6274003; 0.6257294; 0.62405777; 0.6223854;
    0.62071234; 0.6190386; 0.61736417; 0.6156891; 0.61401343; 0.6123372;
    0.6106603; 0.6089829; 0.607305; 0.6056265; 0.6039476; 0.60226816;
    0.6005883; 0.598908; 0.59722733; 0.5955463; 0.59386486; 0.5921831;
    0.59050107; 0.5888187; 0.5871361; 0.5854532; 0.5837701; 0.5820868;
    0.5804033; 0.5787197; 0.5770359; 0.575352; 0.57366806; 0.571984;
    0.5702999; 0.5686158; 0.56693166; 0.56524754; 0.5635635; 0.5618795;
    0.56019557; 0.5585118; 0.5568281; 0.55514455; 0.5534612; 0.551778;
    0.5500951; 0.5484124; 0.54673; 0.5450478; 0.54336596; 0.54168445;
    0.54000324; 0.53832245; 0.5366421; 0.53496206; 0.5332825; 0.53160346;
    0.5299248; 0.52824676; 0.5265692; 0.52489215; 0.5232157; 0.5215398;
    0.51986456; 0.51818997; 0.51651603; 0.51484275; 0.5131702; 0.5114983;
    0.5098272; 0.50815684; 0.5064873; 0.50481856; 0.50315064; 0.50148356;
    0.4998174; 0.4981521; 0.49648774; 0.49482432; 0.49316183; 0.49150035;
    0.48983985; 0.4881804; 0.486522; 0.48486462; 0.4832084; 0.48155323;
    0.4798992; 0.47824633; 0.47659463; 0.4749441; 0.47329482; 0.4716468;
    0.47; 0.46835446; 0.46671024; 0.46506736; 0.4634258; 0.46178558;
    0.46014675; 0.45850933; 0.45687333; 0.45523876; 0.45360568; 0.45197406;
    0.45034397; 0.44871536; 0.44708833; 0.44546285; 0.44383895; 0.44221666;
    0.440596; 0.43897697; 0.43735963; 0.43574396; 0.43412998; 0.43251774;
    0.43090722; 0.4292985; 0.42769152; 0.42608637; 0.42448303; 0.4228815;
    0.42128187; 0.4196841; 0.41808826; 0.4164943; 0.4149023; 0.41331223;
    0.41172415; 0.41013804; 0.40855396; 0.4069719; 0.4053919; 0.40381396;
    0.4022381; 0.40066436; 0.39909273; 0.39752322; 0.3959559; 0.39439073;
    0.39282778; 0.39126703; 0.3897085; 0.3881522; 0.3865982; 0.38504648;
    0.38349706; 0.38194993; 0.38040516; 0.37886274; 0.37732267; 0.375785;
    0.37424973; 0.37271687; 0.37118647; 0.36965853; 0.36813304; 0.36661002;
    0.36508954; 0.36357155; 0.3620561; 0.36054322; 0.3590329; 0.35752517;
    0.35602003; 0.35451752; 0.35301763; 0.3515204; 0.3500258; 0.3485339;
    0.3470447; 0.34555823; 0.34407446; 0.34259343; 0.34111515; 0.33963963;
    0.33816692; 0.336697; 0.3352299; 0.33376563; 0.3323042; 0.33084565;
    0.32938993; 0.32793713; 0.3264872; 0.32504022; 0.32359615; 0.32215503;
    0.32071686; 0.31928164; 0.31784943; 0.3164202; 0.314994; 0.3135708;
    0.31215066; 0.31073356; 0.3093195; 0.30790854; 0.30650064; 0.30509588;
    0.30369422; 0.30229566; 0.30090025; 0.299508; 0.2981189; 0.29673296;
    0.29535022; 0.2939707; 0.29259437; 0.29122123; 0.28985137; 0.28848472;
    0.28712133; 0.2857612; 0.28440437; 0.2830508; 0.28170055; 0.2803536;
    0.27900997; 0.27766964; 0.27633268; 0.27499905; 0.2736688; 0.27234194;
    0.27101842; 0.2696983; 0.26838157; 0.26706827; 0.26575837; 0.26445192;
    0.26314887; 0.2618493; 0.26055318; 0.2592605; 0.25797132; 0.2566856;
    0.2554034; 0.25412467; 0.25284946; 0.25157773; 0.2503096; 0.24904492;
    0.24778382; 0.24652626; 0.24527225; 0.2440218; 0.24277493; 0.24153163;
    0.24029191; 0.23905578; 0.23782326; 0.23659433; 0.23536903; 0.23414734;
    0.23292927; 0.23171483; 0.23050404; 0.22929688; 0.22809339; 0.22689353;
    0.22569734; 0.22450483; 0.22331597; 0.2221308; 0.22094932; 0.21977153;
    0.21859743; 0.21742703; 0.21626033; 0.21509734; 0.21393807; 0.21278252;
    0.21163069; 0.21048258; 0.20933822; 0.20819758; 0.2070607; 0.20592754;
    0.20479813; 0.20367248; 0.20255059; 0.20143245; 0.20031808; 0.19920748;
    0.19810064; 0.19699757; 0.19589828; 0.19480278; 0.19371104; 0.1926231;
    0.19153893; 0.19045855; 0.18938197; 0.18830918; 0.18724018; 0.18617497;
    0.18511358; 0.18405597; 0.18300217; 0.18195218; 0.18090598; 0.1798636;
    0.17882504; 0.17779027; 0.1767593; 0.17573217; 0.17470883; 0.1736893;
    0.1726736; 0.1716617; 0.17065361; 0.16964935; 0.1686489; 0.16765225;
    0.16665943; 0.16567042; 0.16468522; 0.16370384; 0.16272627; 0.16175252;
    0.16078258; 0.15981644; 0.15885411; 0.1578956; 0.15694089; 0.15599;
    0.15504292; 0.15409963; 0.15316014; 0.15222447; 0.15129258; 0.1503645;
    0.14944021; 0.14851972; 0.14760303; 0.14669013; 0.14578101; 0.14487568;
    0.14397413; 0.14307636; 0.14218238; 0.14129217; 0.14040573; 0.13952307;
    0.13864417; 0.13776903; 0.13689767; 0.13603005; 0.13516618; 0.13430607;
    0.13344972; 0.1325971; 0.13174823; 0.1309031; 0.13006169; 0.12922402;
    0.12839006; 0.12755983; 0.12673332; 0.12591052; 0.12509143; 0.12427604;
    0.12346435; 0.12265636; 0.121852055; 0.12105144; 0.1202545; 0.11946124;
    0.11867165; 0.11788572; 0.11710346; 0.11632485; 0.115549885; 0.11477857;
    0.11401089; 0.11324684; 0.11248643; 0.11172963; 0.11097645; 0.110226884;
    0.10948092; 0.10873855; 0.10799977; 0.107264586; 0.106532976; 0.105804935;
    0.10508047; 0.10435956; 0.1036422; 0.10292839; 0.10221813; 0.1015114;
    0.10080819; 0.100108504; 0.09941233; 0.098719664; 0.0980305; 0.09734483;
    0.09666264; 0.09598393; 0.095308684; 0.09463691; 0.093968585; 0.09330372;
    0.092642285; 0.09198428; 0.09132971; 0.09067855; 0.090030804; 0.089386456;
    0.088745505; 0.088107936; 0.08747375; 0.08684293; 0.08621547; 0.085591376;
    0.084970616; 0.08435319; 0.0837391; 0.08312833; 0.08252087; 0.08191671;
    0.08131585; 0.08071827; 0.080123976; 0.07953294; 0.078945175; 0.078360654;
    0.077779375; 0.07720133; 0.07662651; 0.07605491; 0.07548651; 0.07492131;
    0.0743593; 0.07380046; 0.073244795; 0.07269229; 0.07214294; 0.07159673;
    0.07105365; 0.070513695; 0.06997685; 0.069443114; 0.06891247; 0.06838491;
    0.067860425; 0.06733901; 0.066820644; 0.06630533; 0.06579305; 0.0652838;
    0.06477757; 0.06427433; 0.0637741; 0.063276865; 0.06278259; 0.062291294;
    0.061802953; 0.06131756; 0.0608351; 0.060355574; 0.05987896; 0.059405252;
    0.058934443; 0.05846652; 0.058001474; 0.057539295; 0.05707997; 0.056623492;
    0.05616985; 0.05571903; 0.055271026; 0.054825824; 0.05438342; 0.053943794;
    0.053506944; 0.05307286; 0.052641522; 0.052212927; 0.051787063; 0.051363923;
    0.05094349; 0.050525755; 0.05011071; 0.04969834; 0.049288645; 0.0488816;
    0.048477206; 0.048075445; 0.04767631; 0.047279786; 0.04688587; 0.046494544;
    0.046105802; 0.04571963; 0.04533602; 0.04495496; 0.04457644; 0.044200446;
    0.04382697; 0.043456003; 0.043087535; 0.042721547; 0.042358037; 0.04199699;
    0.041638397; 0.041282244; 0.040928524; 0.040577225; 0.040228333; 0.039881844;
    0.039537743; 0.039196018; 0.038856663; 0.038519662; 0.038185004; 0.037852682;
    0.037522685; 0.037195; 0.036869615; 0.036546525; 0.036225714; 0.03590717;
    0.035590887; 0.035276853; 0.034965057; 0.034655485; 0.03434813; 0.03404298;
    0.033740025; 0.033439253; 0.033140652; 0.032844216; 0.03254993; 0.032257784;
    0.03196777; 0.031679876; 0.031394087; 0.031110398; 0.030828796; 0.030549273;
    0.030271813; 0.02999641; 0.029723052; 0.029451728; 0.029182427; 0.02891514;
    0.028649855; 0.028386563; 0.028125253; 0.02786591; 0.027608532; 0.027353102;
    0.027099613; 0.026848052; 0.026598409; 0.026350675; 0.02610484; 0.02586089;
    0.02561882; 0.025378617; 0.025140269; 0.024903767; 0.0246691; 0.02443626;
    0.024205236; 0.023976017; 0.023748592; 0.023522953; 0.023299087; 0.023076987;
    0.022856642; 0.02263804; 0.022421172; 0.022206029; 0.0219926; 0.021780876;
    0.021570845; 0.021362498; 0.021155827; 0.020950818; 0.020747466; 0.020545758;
    0.020345684; 0.020147236; 0.019950403; 0.019755175; 0.019561544; 0.019369498;
    0.019179028; 0.018990126; 0.01880278; 0.018616982; 0.018432721; 0.01824999;
    0.018068777; 0.017889075; 0.017710872; 0.01753416; 0.017358929; 0.017185168;
    0.017012872; 0.016842028; 0.016672628; 0.016504662; 0.016338123; 0.016173;
    0.016009282; 0.015846964; 0.015686033; 0.015526483; 0.015368304; 0.015211486;
    0.0150560215; 0.014901901; 0.014749114; 0.014597654; 0.014447511; 0.0142986765;
    0.014151142; 0.014004898; 0.013859936; 0.013716248; 0.0135738235; 0.013432656;
    0.013292736; 0.013154055; 0.013016605; 0.012880377; 0.012745362; 0.012611552;
    0.012478939; 0.012347515; 0.01221727; 0.012088198; 0.0119602885; 0.0118335355;
    0.011707929; 0.011583461; 0.011460125; 0.011337912; 0.011216813; 0.011096821;
    0.010977928; 0.0108601255; 0.010743406; 0.010627762; 0.0105131855; 0.010399668;
    0.010287202; 0.01017578; 0.010065395; 0.009956039; 0.009847702; 0.009740381;
    0.0096340645; 0.009528747; 0.009424419; 0.009321076; 0.009218709; 0.00911731;
    0.009016872; 0.008917389; 0.008818853; 0.008721256; 0.008624591; 0.008528852;
    0.00843403; 0.00834012; 0.008247114; 0.008155004; 0.008063785; 0.007973449;
    0.007883989; 0.007795398; 0.0077076694; 0.0076207966; 0.0075347726; 0.007449591;
    0.0073652444; 0.007281727; 0.0071990318; 0.007117152; 0.0070360815; 0.0069558136;
    0.0068763415; 0.006797659; 0.00671976; 0.0066426382; 0.0065662866; 0.006490699;
    0.0064158696; 0.006341792; 0.00626846; 0.0061958674; 0.0061240084; 0.0060528764;
    0.0059824656; 0.0059127696; 0.0058437833; 0.0057755; 0.0057079145; 0.00564102;
    0.0055748112; 0.0055092825; 0.005444428; 0.005380241; 0.0053167176; 0.005253851;
    0.005191636; 0.005130066; 0.0050691366; 0.0050088423; 0.0049491767; 0.004890135;
    0.0048317118; 0.004773902; 0.004716699; 0.0046600983
  ]%Q.

(** ** Effects: the random generator and the external models

    [generate] draws from TensorFlow's global normal generator, calls the
    three Keras models and writes progress to the console.  The generator
    is threaded as state; model calls, draws and console output are
    collected, in order, as the events an action emits. *)

Inductive event : Type :=
| TextEncoderCall (tokens pos_ids : list (list Z))
| DiffusionCall (latent t_emb context : Tensor)
| DecoderCall (latent : Tensor)
| NormalDraw (count : nat)
| Printed (timesteps : list Z)
| Progress (index timestep : Z).

(** The generator: an arbitrary stream of standard-normal samples and the
    position of the next one. *)
Record Rng : Type := { gauss : nat -> R; cursor : nat }.

Record Outcome (A : Type) : Type :=
  { value : Result A; rng_after : Rng; emitted : list event }.
Arguments value {A} o.
Arguments rng_after {A} o.
Arguments emitted {A} o.

Definition M (A : Type) : Type := Rng -> Outcome A.

Definition ret {A} (a : A) : M A :=
  fun g => {| value := Ok a; rng_after := g; emitted := [] |}.

Definition lift {A} (r : Result A) : M A :=
  fun g => {| value := r; rng_after := g; emitted := [] |}.

Definition bind {A B} (m : M A) (k : A -> M B) : M B :=
  fun g =>
    let o := m g in
    match value o with
    | Ok a =>
        let o' := k a (rng_after o) in
        {| value := value o'; rng_after := rng_after o';
           emitted := emitted o ++ emitted o' |}
    | Raise e =>
        {| value := Raise e; rng_after := rng_after o; emitted := emitted o |}
    end.

Definition emit (e : event) : M unit :=
  fun g => {| value := Ok tt; rng_after := g; emitted := [e] |}.

(** [assert cond] *)
Definition assert (cond : bool) : M unit :=
  lift (if cond then Ok tt else Raise AssertionError).

Declare Scope eff_scope.
Delimit Scope eff_scope with eff.
Notation "x <- m ;; k" := (bind m (fun x => k))
  (at level 61, m at next level, right associativity) : eff_scope.
Notation "' pat <- m ;; k" := (bind m (fun x => match x with pat => k end))
  (at level 61, pat pattern, m at next level, right associativity) : eff_scope.

(** The body of a [for] loop that rebinds one variable. *)
Fixpoint for_each {A S} (l : list A) (body : S -> A -> M S) (s : S) : M S :=
  match l with
  | [] => ret s
  | a :: l' => (s' <- body s a ;; for_each l' body s')%eff
  end.

(** [tf.random.normal(shape)], [count] being the number of elements. *)
Definition tf_random_normal (count : nat) : M Tensor :=
  fun g =>
    {| value := Ok (map (gauss g) (seq (cursor g) count));
       rng_after := {| gauss := gauss g; cursor := (cursor g + count)%nat |};
       emitted := [NormalDraw count] |}.

(** ** The sampler object *)

Record Text2Image : Type :=
  { img_height : nat;
    img_width : nat;
    batch_size : nat;
    tokenizer : string -> list Z;
    text_encoder : list (list Z) -> list (list Z) -> Tensor;
    diffusion_model : Tensor -> Tensor -> Tensor -> Tensor;
    decoder : Tensor -> Tensor;
    tokens_unconditional : list (list Z) }.

(** [Text2Image.__init__], the three models and the tokenizer being
    supplied by the environment. *)
Definition init (img_height img_width batch_size : nat)
    (tokenizer : string -> list Z)
    (text_encoder : list (list Z) -> list (list Z) -> Tensor)
    (diffusion_model : Tensor -> Tensor -> Tensor -> Tensor)
    (decoder : Tensor -> Tensor) : Text2Image :=
  {| img_height := img_height;
     img_width := img_width;
     batch_size := batch_size;
     tokenizer := tokenizer;
     text_encoder := text_encoder;
     diffusion_model := diffusion_model;
     decoder := decoder;
     tokens_unconditional := repeat _TOKENS_UNCONDITIONAL batch_size |}.

(** [model.predict_on_batch(inputs)] for each of the three models. *)
Definition text_encoder_predict (self : Text2Image)
    (tokens pos_ids : list (list Z)) : M Tensor :=
  (_ <- emit (TextEncoderCall tokens pos_ids) ;;
   ret (text_encoder self tokens pos_ids))%eff.

Definition diffusion_model_predict (self : Text2Image)
    (latent t_emb context : Tensor) : M Tensor :=
  (_ <- emit (DiffusionCall latent t_emb context) ;;
   ret (diffusion_model self latent t_emb context))%eff.

Definition decoder_predict (self : Text2Image) (latent : Tensor) : M Tensor :=
  (_ <- emit (DecoderCall latent) ;; ret (decoder self latent))%eff.

(** ** Methods of [Text2Image] *)

Definition timestep_embedding (self : Text2Image)
    (timesteps : Tensor) (dim : Z) (max_period : R) : Result Tensor :=
  let half := dim / 2 in
  (log_period <- Py.log max_period ;;
   ramp <- Np.arange 0 half 1 ;;
   let freqs :=
     map (fun i => exp (- log_period * IZR i / IZR half)%R) ramp in
   args <- T.broadcast_mul timesteps freqs ;;
   Ok (map cos args ++ map sin args))%result.

Definition get_model_output (self : Text2Image) (latent : Tensor) (t : Z)
    (context unconditional_context : Tensor)
    (unconditional_guidance_scale : R) : M Tensor :=
  let timesteps := [IZR t] in
  (t_emb <- lift (timestep_embedding self timesteps 320 10000%R) ;;
   let t_emb := Np.repeat_rows t_emb (batch_size self) in
   unconditional_latent <-
     diffusion_model_predict self latent t_emb unconditional_context ;;
   latent <- diffusion_model_predict self latent t_emb context ;;
   lift (diff <- T.sub ValueError latent unconditional_latent ;;
         T.add ValueError unconditional_latent
               (T.scale unconditional_guidance_scale diff))%result)%eff.

Definition get_x_prev_and_pred_x0 (self : Text2Image) (x e_t : Tensor)
    (index : Z) (a_t a_prev temperature : R) : M (Tensor * Tensor) :=
  let sigma_t := 0%R in
  (sqrt_one_minus_at <- lift (Py.sqrt (1 - a_t)) ;;
   numerator <-
     lift (T.sub InvalidArgumentError x (T.scale sqrt_one_minus_at e_t)) ;;
   sqrt_at <- lift (Py.sqrt a_t) ;;
   let pred_x0 := T.div_scalar numerator sqrt_at in
   (* Direction pointing to x_t *)
   sqrt_dir <- lift (Py.sqrt (1 - a_prev - sigma_t ^ 2)) ;;
   let dir_xt := T.scale sqrt_dir e_t in
   sample <- tf_random_normal (length x) ;;
   let noise := T.scale_r (T.scale sigma_t sample) temperature in
   sqrt_aprev <- lift (Py.sqrt a_prev) ;;
   x_prev <-
     lift (T.add InvalidArgumentError (T.scale sqrt_aprev pred_x0) dir_xt) ;;
   ret (x_prev, pred_x0))%eff.

(** The schedule bookkeeping of [generate], one definition per local
    variable. *)
Definition timesteps (n_steps : Z) : Result (list Z) :=
  (stride <- Py.floordiv 1000 n_steps ;; Np.arange 1 1000 stride)%result.

Definition alphas (timesteps : list Z) : Result (list Q) :=
  rmap (Py.getitem _ALPHAS_CUMPROD) timesteps.

Definition alphas_prev (alphas : list Q) : list Q :=
  1.0%Q :: Py.drop_last alphas.

(** The order in which the loop visits the schedule. *)
Definition processing_order (timesteps : list Z) : list (Z * Z) :=
  Py.reversed (Py.enumerate timesteps).

(** The prompt as handed to the text encoder. *)
Definition pad_phrase (inputs : list Z) : list Z :=
  inputs ++ repeat 49407 (77 - length inputs).

Definition generate (self : Text2Image) (prompt : string) (n_steps : Z)
    (unconditional_guidance_scale temperature : R) : M (list Z) :=
  let n_h := (img_height self / 8)%nat in
  let n_w := (img_width self / 8)%nat in
  let inputs := tokenizer self prompt in
  (_ <- assert (length inputs <? 77)%nat ;;
   let phrase := pad_phrase inputs in
   let pos_ids := repeat (map Z.of_nat (seq 0 77)) (batch_size self) in
   (* Get context *)
   let phrase := repeat phrase (batch_size self) in
   context <- text_encoder_predict self phrase pos_ids ;;
   unconditional_context <-
     text_encoder_predict self (tokens_unconditional self) pos_ids ;;
   timesteps <- lift (timesteps n_steps) ;;
   _ <- emit (Printed timesteps) ;;
   alphas <- lift (alphas timesteps) ;;
   let alphas_prev := alphas_prev alphas in
   latent <- tf_random_normal (batch_size self * n_h * n_w * 4) ;;
   latent <-
     for_each (processing_order timesteps)
       (fun latent '(index, timestep) =>
          _ <- emit (Progress index timestep) ;;
          e_t <- get_model_output self latent timestep context
                   unconditional_context unconditional_guidance_scale ;;
          a_t <- lift (Py.getitem alphas index) ;;
          a_prev <- lift (Py.getitem alphas_prev index) ;;
          ' (x_prev, pred_x0) <-
            get_x_prev_and_pred_x0 self latent e_t index
              (Q2R a_t) (Q2R a_prev) temperature ;;
          ret x_prev)
       latent ;;
   decoded <- decoder_predict self latent ;;
   let decoded :=
     T.scale_r (T.div_scalar (T.add_scalar decoded 1) 2) 255 in
   ret (T.to_uint8 (T.clip decoded 0 255)))%eff.

(** ** The arithmetic kernels in IEEE 754 arithmetic

    A Python [float] is a binary64 number; the tensors of the sampler
    hold binary32 numbers, and a Python float that meets a tensor is
    first converted to binary32.  Numbers are [spec_float] values and the
    operations are those of the Standard Library's specification of
    IEEE 754 at the two precisions. *)

Module Ieee.

Definition double_sub := SFsub 53 1024.
Definition double_mul := SFmul 53 1024.
Definition single_add := SFadd 24 128.
Definition single_sub := SFsub 24 128.
Definition single_mul := SFmul 24 128.
Definition single_div := SFdiv 24 128.

(** The binary64 and binary32 numbers nearest to [m * 2 ^ e]. *)
Definition double (m e : Z) : spec_float := binary_normalize 53 1024 m e false.
Definition single (m e : Z) : spec_float := binary_normalize 24 128 m e false.

(** Conversion of a Python float to the element type of a tensor. *)
Definition to_single (x : spec_float) : spec_float :=
  match x with
  | S754_finite s m e => binary_round 24 128 s m e
  | _ => x
  end.

(** [math.sqrt]: domain error on negative numbers. *)
Definition sqrt (x : spec_float) : Result spec_float :=
  match x with
  | S754_finite true _ _ | S754_infinity true => Raise ValueError
  | _ => Ok (SFsqrt 53 1024 x)
  end.

Definition Tensor32 := list spec_float.

Fixpoint zip_with (err : exn) (f : spec_float -> spec_float -> spec_float)
    (a b : Tensor32) : Result Tensor32 :=
  match a, b with
  | [], [] => Ok []
  | x :: a', y :: b' =>
      (r <- zip_with err f a' b' ;; Ok (f x y :: r))%result
  | _, _ => Raise err
  end.

(** Elementwise combination with broadcasting of a one-element operand,
    as [T.broadcast]. *)
Definition broadcast (err : exn) (f : spec_float -> spec_float -> spec_float)
    (a b : Tensor32) : Result Tensor32 :=
  if Nat.eqb (length a) (length b) then zip_with err f a b
  else match a, b with
       | [x], _ => Ok (map (fun v => f x v) b)
       | _, [y] => Ok (map (fun v => f v y) a)
       | _, _ => Raise err
       end.

(** Python float * tensor and tensor / Python float. *)
Definition scale (s : spec_float) (a : Tensor32) : Tensor32 :=
  map (single_mul (to_single s)) a.
Definition div_scalar (a : Tensor32) (s : spec_float) : Tensor32 :=
  map (fun v => single_div v (to_single s)) a.

(** The value returned by [get_model_output], from the two estimates of
    the noise predictor. *)
Definition guided (unconditional_latent latent : Tensor32)
    (unconditional_guidance_scale : spec_float) : Result Tensor32 :=
  (diff <- broadcast ValueError single_sub latent unconditional_latent ;;
   broadcast ValueError single_add unconditional_latent
             (scale unconditional_guidance_scale diff))%result.

(** The value returned by [get_x_prev_and_pred_x0]; the noise it draws
    does not reach the result and is left out. *)
Definition get_x_prev_and_pred_x0 (x e_t : Tensor32)
    (a_t a_prev : spec_float) : Result (Tensor32 * Tensor32) :=
  let sigma_t := double 0 0 in
  (sqrt_one_minus_at <- sqrt (double_sub (double 1 0) a_t) ;;
   numerator <-
     broadcast InvalidArgumentError single_sub x (scale sqrt_one_minus_at e_t) ;;
   sqrt_at <- sqrt a_t ;;
   let pred_x0 := div_scalar numerator sqrt_at in
   sqrt_dir <-
     sqrt (double_sub (double_sub (double 1 0) a_prev)
                      (double_mul sigma_t sigma_t)) ;;
   let dir_xt := scale sqrt_dir e_t in
   sqrt_aprev <- sqrt a_prev ;;
   x_prev <-
     broadcast InvalidArgumentError single_add (scale sqrt_aprev pred_x0) dir_xt ;;
   Ok (x_prev, pred_x0))%result.

End Ieee.

(** ** Auxiliary definitions used in the statements *)

(** The tensor whose elements are [f a_i b_i]. *)
Definition pointwise (f : R -> R -> R) (a b : Tensor) : Tensor :=
  map (fun p => f (fst p) (snd p)) (combine a b).

(** The value part of [get_x_prev_and_pred_x0], free of the generator. *)
Definition ddim_value (x e_t : Tensor) (a_t a_prev : R)
  : Result (Tensor * Tensor) :=
  (sqrt_one_minus_at <- Py.sqrt (1 - a_t) ;;
   numerator <- T.sub InvalidArgumentError x (T.scale sqrt_one_minus_at e_t) ;;
   sqrt_at <- Py.sqrt a_t ;;
   sqrt_dir <- Py.sqrt (1 - a_prev - 0 ^ 2) ;;
   sqrt_aprev <- Py.sqrt a_prev ;;
   x_prev <- T.add InvalidArgumentError
               (T.scale sqrt_aprev (T.div_scalar numerator sqrt_at))
               (T.scale sqrt_dir e_t) ;;
   Ok (x_prev, T.div_scalar numerator sqrt_at))%result.

(** The embedding handed to the noise predictor for timestep [t]. *)
Definition t_emb (self : Text2Image) (t : Z) : Tensor :=
  match timestep_embedding self [IZR t] 320 10000%R with
  | Ok emb => Np.repeat_rows emb (batch_size self)
  | Raise _ => []
  end.

(** [r] is anything but a failed assertion. *)
Definition rsafe {A} (r : Result A) : Prop := r <> Raise AssertionError.
Definition msafe {A} (m : M A) : Prop := forall g, rsafe (value (m g)).

(** A sampler over stand-in models, a tokenizer returning [n] tokens, and
    a generator, for concrete runs. *)
Definition stub : Text2Image :=
  init 8 8 1 (fun _ => []) (fun _ _ => [])
       (fun latent _ _ => latent) (fun latent => latent).

Definition stub_tokens (n : nat) : Text2Image :=
  init 8 8 1 (fun _ => repeat 320 n) (fun _ _ => [])
       (fun latent _ _ => latent) (fun latent => latent).

Definition rng0 : Rng := {| gauss := fun _ => 0%R; cursor := 0 |}.

(** Boolean test that each element of a list is strictly below its
    predecessor. *)
Fixpoint decreasingb (l : list Q) : bool :=
  match l with
  | [] => true
  | a :: l' =>
      match l' with
      | [] => true
      | b :: _ => negb (Qle_bool a b) && decreasingb l'
      end
  end.

(** A sampler whose noise predictor returns its context argument, so that
    the two estimates of one call can differ in size. *)
Definition stub_echo_context : Text2Image :=
  init 8 8 1 (fun _ => []) (fun _ _ => [])
       (fun _ _ context => context) (fun latent => latent).

(** Classification and counting of the events of a run. *)
Definition is_text_encoder_call (e : event) : bool :=
  match e with TextEncoderCall _ _ => true | _ => false end.

Definition is_diffusion_call (e : event) : bool :=
  match e with DiffusionCall _ _ _ => true | _ => false end.

Definition is_decoder_call (e : event) : bool :=
  match e with DecoderCall _ => true | _ => false end.

Definition is_normal_draw (e : event) : bool :=
  match e with NormalDraw _ => true | _ => false end.

Definition count_events (p : event -> bool) (evs : list event) : nat :=
  length (filter p evs).

(** Number of elements of the latent tensor of [generate]. *)
Definition latent_size (self : Text2Image) : nat :=
  batch_size self * (img_height self / 8) * (img_width self / 8) * 4.

(** The noise predictor returns a tensor of the shape of its latent
    argument. *)
Definition shape_preserving (self : Text2Image) : Prop :=
  forall latent emb context,
    length (diffusion_model self latent emb context) = length latent.

(** The body of the denoising loop of [generate]. *)
Definition denoise (self : Text2Image) (context unconditional_context : Tensor)
    (unconditional_guidance_scale temperature : R)
    (alphas alphas_prev : list Q) (latent : Tensor) (step : Z * Z)
  : M Tensor :=
  (let '(index, timestep) := step in
   _ <- emit (Progress index timestep) ;;
   e_t <- get_model_output self latent timestep context
            unconditional_context unconditional_guidance_scale ;;
   a_t <- lift (Py.getitem alphas index) ;;
   a_prev <- lift (Py.getitem alphas_prev index) ;;
   ' (x_prev, pred_x0) <-
     get_x_prev_and_pred_x0 self latent e_t index
       (Q2R a_t) (Q2R a_prev) temperature ;;
   ret x_prev)%eff.

(** The final rescaling of the decoded image to 8-bit values. *)
Definition to_image (decoded : Tensor) : list Z :=
  T.to_uint8
    (T.clip (T.scale_r (T.div_scalar (T.add_scalar decoded 1) 2) 255) 0 255).

(** A position of the loop at which both coefficient lookups succeed and
    give values in (0, 1]. *)
Definition ready (al : list Q) (step : Z * Z) : Prop :=
  exists a_t a_prev,
    Py.getitem al (fst step) = Ok a_t /\
    Py.getitem (alphas_prev al) (fst step) = Ok a_prev /\
    (0 < Q2R a_t <= 1)%R /\ (0 < Q2R a_prev <= 1)%R.

(** * Properties *)

Example tokens_unconditional_length : length _TOKENS_UNCONDITIONAL = 77%nat.
Proof. reflexivity. Qed.

Example alphas_cumprod_length : length _ALPHAS_CUMPROD = 1000%nat.
Proof. reflexivity. Qed.

(** Every coefficient of the table lies in (0, 1] and the table is
    strictly decreasing. *)
Example alphas_cumprod_range :
  forallb (fun a => negb (Qle_bool a 0) && Qle_bool a 1) _ALPHAS_CUMPROD = true /\
  forallb (fun p => negb (Qle_bool (fst p) (snd p)))
          (combine _ALPHAS_CUMPROD (tl _ALPHAS_CUMPROD)) = true.
Proof. split; vm_compute; reflexivity. Qed.

Example timesteps_25 :
  timesteps 25 = Ok [1; 41; 81; 121; 161; 201; 241; 281; 321; 361; 401; 441;
                     481; 521; 561; 601; 641; 681; 721; 761; 801; 841; 881;
                     921; 961].
Proof. reflexivity. Qed.

(** ** Python list helpers *)

Section ListFacts.
Context {A : Type}.

Lemma combine_values {B} (idx : list B) (l : list A) :
  length idx = length l -> map snd (combine idx l) = l.
Proof.
  revert idx.
  induction l as [|a l IH]; intros [|i idx] H; simpl in *;
    try reflexivity; try discriminate.
  f_equal. apply IH. congruence.
Qed.

Lemma enumerate_values (l : list A) : map snd (Py.enumerate l) = l.
Proof.
  unfold Py.enumerate. apply combine_values.
  rewrite length_map, length_seq. reflexivity.
Qed.

Lemma processing_order_values (l : list A) :
  map snd (Py.reversed (Py.enumerate l)) = rev l.
Proof.
  unfold Py.reversed. rewrite map_rev, enumerate_values. reflexivity.
Qed.

Lemma sorted_snoc (lt : A -> A -> Prop) (l : list A) (a : A) :
  StronglySorted lt l -> Forall (fun x => lt x a) l ->
  StronglySorted lt (l ++ [a]).
Proof.
  induction 1 as [|b l Hs IH Hb]; intros Ha; simpl.
  - constructor; constructor.
  - inversion Ha; subst. constructor.
    + apply IH; assumption.
    + apply Forall_app. split; [assumption | constructor; [assumption | constructor]].
Qed.

Lemma sorted_weaken (r r' : A -> A -> Prop) (l : list A) :
  (forall x y, r x y -> r' x y) ->
  StronglySorted r l -> StronglySorted r' l.
Proof.
  intros Hrr. induction 1 as [|b l Hs IH Hb]; constructor.
  - exact IH.
  - eapply Forall_impl; [| exact Hb]. intros x. apply Hrr.
Qed.

Lemma sorted_rev (lt : A -> A -> Prop) (l : list A) :
  StronglySorted lt l -> StronglySorted (fun x y => lt y x) (rev l).
Proof.
  induction 1 as [|b l Hs IH Hb]; simpl.
  - constructor.
  - apply sorted_snoc; [exact IH |].
    apply Forall_rev. exact Hb.
Qed.

End ListFacts.

(** ** The timestep schedule *)

Section Arange.
Variables start stop step : Z.
Hypothesis step_pos : 0 < step.

Lemma arange_len_spec (i : nat) :
  (i < Np.arange_len start stop step)%nat <->
  start + Z.of_nat i * step < stop.
Proof.
  unfold Np.arange_len.
  pose proof (Z.div_mod (start - stop) step ltac:(lia)) as Hdm.
  pose proof (Z.mod_pos_bound (start - stop) step step_pos) as Hr.
  set (q := (start - stop) / step) in *.
  set (r := (start - stop) mod step) in *.
  split; intros H.
  - assert (Z.of_nat i + 1 <= - q) by lia. nia.
  - assert (Z.of_nat i < - q) by nia. lia.
Qed.

Lemma arange_ok :
  Np.arange start stop step =
  Ok (map (fun i => start + Z.of_nat i * step)
          (seq 0 (Np.arange_len start stop step))).
Proof.
  unfold Np.arange. destruct (Z.eqb_spec step 0); [lia | reflexivity].
Qed.

Lemma ramp_sorted (k n : nat) :
  StronglySorted Z.lt
    (map (fun i => start + Z.of_nat i * step) (seq k n)).
Proof.
  revert k. induction n as [|n IH]; intros k; simpl.
  - constructor.
  - constructor; [apply IH |].
    apply Forall_forall. intros t Ht.
    apply in_map_iff in Ht. destruct Ht as [j [<- Hj]].
    apply in_seq in Hj. nia.
Qed.

Lemma ramp_In (n : nat) (t : Z) :
  In t (map (fun i => start + Z.of_nat i * step) (seq 0 n)) <->
  exists i, (i < n)%nat /\ t = start + Z.of_nat i * step.
Proof.
  rewrite in_map_iff. split.
  - intros [i [<- Hi]]. apply in_seq in Hi. exists i. split; [lia | reflexivity].
  - intros [i [Hi ->]]. exists i. split; [reflexivity | apply in_seq; lia].
Qed.

End Arange.

Lemma timesteps_ok (n_steps : Z) :
  1 <= n_steps <= 1000 ->
  timesteps n_steps =
  Ok (map (fun i => 1 + Z.of_nat i * (1000 / n_steps))
          (seq 0 (Np.arange_len 1 1000 (1000 / n_steps)))) /\
  0 < 1000 / n_steps.
Proof.
  intros Hn.
  assert (Hs : 0 < 1000 / n_steps) by (apply Z.div_str_pos; lia).
  split; [| exact Hs].
  unfold timesteps, Py.floordiv.
  destruct (Z.eqb_spec n_steps 0); [lia |]. simpl.
  apply arange_ok. exact Hs.
Qed.

Lemma timesteps_In (n_steps : Z) (ts : list Z) (t : Z) :
  1 <= n_steps <= 1000 -> timesteps n_steps = Ok ts ->
  (In t ts <-> 1 <= t < 1000 /\ (t - 1) mod (1000 / n_steps) = 0).
Proof.
  intros Hn Hts. destruct (timesteps_ok n_steps Hn) as [E Hs].
  assert (Ets : ts = map (fun i => 1 + Z.of_nat i * (1000 / n_steps))
                        (seq 0 (Np.arange_len 1 1000 (1000 / n_steps))))
    by congruence.
  subst ts. clear Hts.
  rewrite ramp_In. split.
  - intros [i [Hi ->]]. apply arange_len_spec in Hi; [| exact Hs].
    split; [nia |].
    replace (1 + Z.of_nat i * (1000 / n_steps) - 1)
      with (Z.of_nat i * (1000 / n_steps)) by ring.
    apply Z.mod_mul. lia.
  - intros [Ht Hm].
    apply Z.mod_divide in Hm; [| lia]. destruct Hm as [k Hk].
    assert (0 <= k) by nia.
    exists (Z.to_nat k). rewrite Z2Nat.id by assumption.
    split; [| lia].
    apply arange_len_spec; [exact Hs |]. rewrite Z2Nat.id by assumption. lia.
Qed.

(** C2: for [n_steps] in [1, 1000] the schedule is every
    [(1000 // n_steps)]-th integer from 1 up (ascending, and holding
    exactly the integers of [1, 1000) that lie a multiple of the stride
    above 1); the loop walks exactly this schedule reversed, and in that
    order it is strictly decreasing and every value lies in [1, 1000). *)
Theorem timesteps_schedule (n_steps : Z) :
  1 <= n_steps <= 1000 ->
  exists ts,
    timesteps n_steps = Ok ts /\
    StronglySorted Z.lt ts /\
    (forall t, In t ts <->
               1 <= t < 1000 /\ (t - 1) mod (1000 / n_steps) = 0) /\
    map snd (processing_order ts) = rev ts /\
    StronglySorted Z.gt (map snd (processing_order ts)) /\
    Forall (fun t => 1 <= t < 1000) (map snd (processing_order ts)).
Proof.
  intros Hn. destruct (timesteps_ok n_steps Hn) as [E Hs].
  eexists. split; [exact E |].
  assert (Hsorted : StronglySorted Z.lt
            (map (fun i => 1 + Z.of_nat i * (1000 / n_steps))
                 (seq 0 (Np.arange_len 1 1000 (1000 / n_steps)))))
    by (apply ramp_sorted; exact Hs).
  split; [exact Hsorted |].
  split; [intros t; apply timesteps_In; assumption |].
  unfold processing_order. rewrite processing_order_values.
  split; [reflexivity |]. split.
  - apply sorted_rev in Hsorted.
    eapply sorted_weaken; [| exact Hsorted].
    intros a b Hab. simpl in Hab. lia.
  - apply Forall_rev. apply Forall_forall. intros t Ht.
    apply (timesteps_In n_steps _ t Hn E) in Ht. tauto.
Qed.

Lemma timesteps_schedule_witness :
  1 <= 25 <= 1000 /\
  exists ts,
    timesteps 25 = Ok ts /\
    StronglySorted Z.lt ts /\
    (forall t, In t ts <-> 1 <= t < 1000 /\ (t - 1) mod (1000 / 25) = 0) /\
    map snd (processing_order ts) = rev ts /\
    StronglySorted Z.gt (map snd (processing_order ts)) /\
    Forall (fun t => 1 <= t < 1000) (map snd (processing_order ts)).
Proof. split; [lia | apply (timesteps_schedule 25); lia]. Defined.

Example processing_order_4 :
  option_map (map snd) 
    (match timesteps 4 with Ok ts => Some (processing_order ts) | Raise _ => None end)
  = Some [751; 501; 251; 1].
Proof. reflexivity. Qed.

Lemma timesteps_length (n_steps : Z) (ts : list Z) :
  1 <= n_steps <= 1000 -> timesteps n_steps = Ok ts ->
  Z.of_nat (length ts) = (999 + 1000 / n_steps - 1) / (1000 / n_steps).
Proof.
  intros Hn Hts. destruct (timesteps_ok n_steps Hn) as [E Hs].
  assert (Ets : ts = map (fun i => 1 + Z.of_nat i * (1000 / n_steps))
                        (seq 0 (Np.arange_len 1 1000 (1000 / n_steps))))
    by congruence.
  subst ts. clear Hts.
  rewrite length_map, length_seq. unfold Np.arange_len.
  set (s := 1000 / n_steps) in *.
  pose proof (Z.div_mod (1 - 1000) s ltac:(lia)) as H1.
  pose proof (Z.mod_pos_bound (1 - 1000) s Hs) as H2.
  pose proof (Z.div_mod (999 + s - 1) s ltac:(lia)) as H3.
  pose proof (Z.mod_pos_bound (999 + s - 1) s Hs) as H4.
  set (q1 := (1 - 1000) / s) in *. set (q2 := (999 + s - 1) / s) in *.
  assert (q1 <= 0) by nia.
  rewrite Z2Nat.id by lia. nia.
Qed.

(** C5 (failing input): with [n_steps = 7] the stride is 142 and the
    schedule holds eight timesteps, not seven; with [n_steps = 1000] it
    holds 999. *)
Theorem timesteps_length_not_n_steps :
  timesteps 7 = Ok [1; 143; 285; 427; 569; 711; 853; 995] /\
  (exists ts, timesteps 1000 = Ok ts /\ length ts = 999%nat).
Proof.
  split; [reflexivity |].
  eexists. split; [reflexivity |]. reflexivity.
Qed.

(** ** The coefficient lookup and the alpha sequences *)

Section GetItem.
Context {A : Type}.
Variable l : list A.
Let n := Z.of_nat (length l).

Lemma getitem_nonneg (i : Z) :
  0 <= i < n ->
  exists a, nth_error l (Z.to_nat i) = Some a /\ Py.getitem l i = Ok a.
Proof.
  intros Hi. unfold Py.getitem. fold n.
  destruct (Z.ltb_spec i 0); [lia |].
  destruct (Z.leb_spec 0 i); [| lia].
  destruct (Z.ltb_spec i n); [| lia]. simpl.
  destruct (nth_error l (Z.to_nat i)) as [a|] eqn:E.
  - exists a. split; reflexivity.
  - apply nth_error_None in E. subst n. lia.
Qed.

Lemma getitem_negative (i : Z) :
  - n <= i < 0 ->
  exists a, nth_error l (Z.to_nat (n + i)) = Some a /\ Py.getitem l i = Ok a.
Proof.
  intros Hi. unfold Py.getitem. fold n.
  destruct (Z.ltb_spec i 0); [| lia].
  destruct (Z.leb_spec 0 (i + n)); [| lia].
  destruct (Z.ltb_spec (i + n) n); [| lia]. simpl.
  replace (n + i) with (i + n) by ring.
  destruct (nth_error l (Z.to_nat (i + n))) as [a|] eqn:E.
  - exists a. split; reflexivity.
  - apply nth_error_None in E. subst n. lia.
Qed.

Lemma getitem_raises (i : Z) :
  Py.getitem l i = Raise IndexError <-> i < - n \/ n <= i.
Proof.
  split.
  - intros H.
    destruct (Z_lt_dec i (- n)); [left; assumption |].
    destruct (Z_le_dec n i); [right; assumption |].
    destruct (Z_lt_dec i 0).
    + destruct (getitem_negative i ltac:(lia)) as [a [_ E]]. congruence.
    + destruct (getitem_nonneg i ltac:(lia)) as [a [_ E]]. congruence.
  - intros Hi. unfold Py.getitem. fold n.
    destruct (Z.ltb_spec i 0).
    + destruct (Z.leb_spec 0 (i + n)); [lia | reflexivity].
    + destruct (Z.leb_spec 0 i); [| lia].
      destruct (Z.ltb_spec i n); [lia | reflexivity].
Qed.

End GetItem.

(** C8 (as the code behaves): the lookup [_ALPHAS_CUMPROD[t]] returns the
    entry at index [t] for [t] in [0, 1000), the entry at index
    [1000 + t] for [t] in [-1000, 0), and raises [IndexError] exactly
    when [t < -1000] or [t >= 1000]. *)
Theorem alphas_cumprod_lookup (t : Z) :
  (0 <= t < 1000 ->
   exists a, nth_error _ALPHAS_CUMPROD (Z.to_nat t) = Some a /\
             Py.getitem _ALPHAS_CUMPROD t = Ok a) /\
  (-1000 <= t < 0 ->
   exists a, nth_error _ALPHAS_CUMPROD (Z.to_nat (1000 + t)) = Some a /\
             Py.getitem _ALPHAS_CUMPROD t = Ok a) /\
  (Py.getitem _ALPHAS_CUMPROD t = Raise IndexError <->
   t < -1000 \/ 1000 <= t).
Proof.
  pose proof (getitem_nonneg _ALPHAS_CUMPROD t) as H1.
  pose proof (getitem_negative _ALPHAS_CUMPROD t) as H2.
  pose proof (getitem_raises _ALPHAS_CUMPROD t) as H3.
  rewrite alphas_cumprod_length in H1, H2, H3.
  change (Z.of_nat 1000) with 1000 in H1, H2, H3.
  repeat split; try tauto; intros; apply H3; assumption.
Qed.

(** C8 (as stated) fails at [t = -1]: the index is outside [0, 1000),
    yet the lookup returns the last entry of the table instead of raising
    [IndexError]. *)
Lemma alphas_cumprod_lookup_negative_index :
  Py.getitem _ALPHAS_CUMPROD (-1) = Ok 0.0046600983%Q /\
  ~ (Py.getitem _ALPHAS_CUMPROD (-1) = Raise IndexError <->
     ~ (0 <= -1 < 1000)).
Proof.
  assert (E : Py.getitem _ALPHAS_CUMPROD (-1) = Ok 0.0046600983%Q)
    by reflexivity.
  split; [exact E |].
  intros [_ H]. rewrite E in H.
  assert (Hout : ~ (0 <= -1 < 1000)) by lia.
  specialize (H Hout). discriminate.
Qed.

Lemma rmap_getitem_ok {A} (table : list A) (ts : list Z) :
  Forall (fun t => 0 <= t < Z.of_nat (length table)) ts ->
  exists al,
    rmap (Py.getitem table) ts = Ok al /\
    Forall2 (fun t a => nth_error table (Z.to_nat t) = Some a) ts al.
Proof.
  induction 1 as [|t ts Ht _ [al [E IH]]]; simpl.
  - exists []. split; [reflexivity | constructor].
  - destruct (getitem_nonneg table t Ht) as [a [Hnth Ha]].
    exists (a :: al). rewrite Ha, E. simpl.
    split; [reflexivity | constructor; assumption].
Qed.

Lemma Forall2_lookup {A B} (P : A -> B -> Prop) (l : list A) (l' : list B) :
  Forall2 P l l' ->
  forall i x, nth_error l i = Some x ->
              exists y, nth_error l' i = Some y /\ P x y.
Proof.
  induction 1 as [|x0 y0 l l' H0 _ IH]; intros [|i] x Hx; simpl in *;
    try discriminate.
  - injection Hx as <-. exists y0. split; [reflexivity | assumption].
  - apply IH. assumption.
Qed.

Lemma drop_last_lookup {A} (l : list A) (i : nat) :
  (S i < length l)%nat ->
  nth_error (Py.drop_last l) i = nth_error l i.
Proof.
  unfold Py.drop_last. revert i.
  induction l as [|a [|b l] IH]; intros i Hi; simpl in *; try lia.
  destruct i as [|i]; [reflexivity |].
  simpl. apply (IH i). simpl. lia.
Qed.

Lemma drop_last_length {A} (l : list A) :
  length (Py.drop_last l) = (length l - 1)%nat.
Proof.
  unfold Py.drop_last.
  induction l as [|a [|b l] IH]; simpl in *; try reflexivity.
  rewrite IH. lia.
Qed.

(** C3: for [n_steps] in [1, 1000], [alphas] holds the table entry of
    each scheduled timestep in ascending order, [alphas_prev] has the same
    length, [alphas_prev[0]] is the literal [1.0], and
    [alphas_prev[i] = alphas[i - 1]] for every later position. *)
Theorem alphas_prev_aligned (n_steps : Z) :
  1 <= n_steps <= 1000 ->
  exists ts al,
    timesteps n_steps = Ok ts /\
    alphas ts = Ok al /\
    (forall i t, nth_error ts i = Some t ->
       exists a, nth_error al i = Some a /\
                 nth_error _ALPHAS_CUMPROD (Z.to_nat t) = Some a) /\
    length al = length ts /\
    length (alphas_prev al) = length al /\
    nth_error (alphas_prev al) 0 = Some 1.0%Q /\
    (forall i, (0 < i < length al)%nat ->
       nth_error (alphas_prev al) i = nth_error al (i - 1)).
Proof.
  intros Hn.
  destruct (timesteps_ok n_steps Hn) as [Hts _].
  pose proof (fun t => timesteps_In n_steps _ t Hn Hts) as Hin.
  revert Hts Hin.
  generalize (map (fun i => 1 + Z.of_nat i * (1000 / n_steps))
                  (seq 0 (Np.arange_len 1 1000 (1000 / n_steps)))).
  intros ts Hts Hin.
  assert (Hrange : Forall (fun t => 0 <= t < Z.of_nat (length _ALPHAS_CUMPROD)) ts).
  { apply Forall_forall. intros t Ht. apply Hin in Ht.
    rewrite alphas_cumprod_length. lia. }
  destruct (rmap_getitem_ok _ALPHAS_CUMPROD ts Hrange) as [al [Hal Hall]].
  exists ts, al.
  assert (Hlen : length al = length ts) by (symmetry; eapply Forall2_length; eassumption).
  assert (Hne : (0 < length ts)%nat).
  { assert (Hone : In 1 ts).
    { apply Hin. split; [lia |]. replace (1 - 1) with 0 by ring. apply Z.mod_0_l.
      assert (0 < 1000 / n_steps) by (apply Z.div_str_pos; lia). lia. }
    destruct ts; [contradiction | simpl; lia]. }
  repeat split.
  - exact Hts.
  - exact Hal.
  - intros i t Hi. eapply Forall2_lookup in Hall; eassumption.
  - exact Hlen.
  - unfold alphas_prev. simpl. rewrite drop_last_length. lia.
  - intros i Hi. unfold alphas_prev.
    destruct i as [|i]; [lia |]. simpl.
    replace (i - 0)%nat with i by lia.
    apply drop_last_lookup. lia.
Qed.

Lemma alphas_prev_aligned_witness :
  1 <= 4 <= 1000 /\
  exists ts al,
    timesteps 4 = Ok ts /\
    alphas ts = Ok al /\
    (forall i t, nth_error ts i = Some t ->
       exists a, nth_error al i = Some a /\
                 nth_error _ALPHAS_CUMPROD (Z.to_nat t) = Some a) /\
    length al = length ts /\
    length (alphas_prev al) = length al /\
    nth_error (alphas_prev al) 0 = Some 1.0%Q /\
    (forall i, (0 < i < length al)%nat ->
       nth_error (alphas_prev al) i = nth_error al (i - 1)).
Proof. split; [lia | apply (alphas_prev_aligned 4); lia]. Defined.

Example alphas_4 :
  alphas [1; 251; 501; 751] =
  Ok [0.998296; 0.67215145; 0.27499905; 0.05571903]%Q /\
  alphas_prev [0.998296; 0.67215145; 0.27499905; 0.05571903]%Q =
  [1.0; 0.998296; 0.67215145; 0.27499905]%Q.
Proof. split; reflexivity. Qed.

(** ** Elementwise tensor arithmetic *)

Section TensorFacts.
Local Open Scope R_scope.

Lemma zip_with_ok (err : exn) (f : R -> R -> R) (a b : Tensor) :
  length a = length b -> T.zip_with err f a b = Ok (pointwise f a b).
Proof.
  revert b. induction a as [|x a IH]; intros [|y b] H; simpl in *;
    try discriminate; [reflexivity |].
  rewrite (IH b) by congruence. reflexivity.
Qed.

Lemma zip_with_raise (err : exn) (f : R -> R -> R) (a b : Tensor) :
  length a <> length b -> T.zip_with err f a b = Raise err.
Proof.
  revert b. induction a as [|x a IH]; intros [|y b] H; simpl in *;
    try reflexivity; try contradiction.
  rewrite (IH b) by congruence. reflexivity.
Qed.

Lemma broadcast_ok (err : exn) (f : R -> R -> R) (a b : Tensor) :
length a = length b -> T.broadcast err f a b = Ok (pointwise f a b).
Proof.
intros H. unfold T.broadcast. rewrite H, Nat.eqb_refl.
apply zip_with_ok. exact H.
Qed.


Lemma pointwise_length (f : R -> R -> R) (a b : Tensor) :
  length a = length b -> length (pointwise f a b) = length a.
Proof.
  intros H. unfold pointwise.
  rewrite length_map, length_combine, <- H. apply Nat.min_id.
Qed.

Lemma pointwise_map_r (f : R -> R -> R) (h : R -> R) (a b : Tensor) :
  pointwise f a (map h b) = pointwise (fun u v => f u (h v)) a b.
Proof.
  unfold pointwise. revert b.
  induction a as [|x a IH]; intros [|y b]; simpl; try reflexivity.
  f_equal. apply IH.
Qed.

Lemma map_pointwise (g : R -> R) (f : R -> R -> R) (a b : Tensor) :
  map g (pointwise f a b) = pointwise (fun u v => g (f u v)) a b.
Proof. unfold pointwise. rewrite map_map. reflexivity. Qed.

Lemma pointwise_ext (f f' : R -> R -> R) (a b : Tensor) :
  (forall u v, f u v = f' u v) -> pointwise f a b = pointwise f' a b.
Proof.
  intros H. unfold pointwise. apply map_ext. intros [u v]. apply H.
Qed.

(** Combining with a tensor already built from the same operands. *)
Lemma pointwise_nest (f g : R -> R -> R) (a b : Tensor) :
  pointwise f (pointwise g a b) b =
  pointwise (fun u v => f (g u v) v) a b.
Proof.
  unfold pointwise. revert b.
  induction a as [|x a IH]; intros [|y b]; simpl; try reflexivity.
  f_equal. apply IH.
Qed.

Lemma pointwise_const_r (f : R -> R -> R) (a : Tensor) (c : R) :
  pointwise f a (repeat c (length a)) = map (fun u => f u c) a.
Proof.
  unfold pointwise. induction a as [|x a IH]; simpl; [reflexivity |].
  f_equal. exact IH.
Qed.

Lemma pointwise_snd (f : R -> R -> R) (a b : Tensor) :
  length a = length b ->
  (forall u v, f u v = v) -> pointwise f a b = b.
Proof.
  intros Hlen Hf. unfold pointwise. revert b Hlen.
  induction a as [|x a IH]; intros [|y b] Hlen; simpl in *;
    try discriminate; [reflexivity |].
  rewrite Hf. f_equal. apply IH. congruence.
Qed.

Lemma pointwise_fst (f : R -> R -> R) (a b : Tensor) :
  length a = length b ->
  (forall u v, f u v = u) -> pointwise f a b = a.
Proof.
  intros Hlen Hf. unfold pointwise. revert b Hlen.
  induction a as [|x a IH]; intros [|y b] Hlen; simpl in *;
    try discriminate; [reflexivity |].
  rewrite Hf. f_equal. apply IH. congruence.
Qed.

Lemma sqrt_ok (r : R) : 0 <= r -> Py.sqrt r = Ok (sqrt r).
Proof.
  intros H. unfold Py.sqrt. destruct (Rlt_dec r 0); [lra | reflexivity].
Qed.

Lemma log_ok (r : R) : 0 < r -> Py.log r = Ok (ln r).
Proof.
  intros H. unfold Py.log. destruct (Rle_dec r 0); [lra | reflexivity].
Qed.

End TensorFacts.

(** ** Running actions *)

Lemma bind_lift_ok {A B} (a : A) (k : A -> M B) (g : Rng) :
  bind (lift (Ok a)) k g = k a g.
Proof. unfold bind, lift. simpl. destruct (k a g). reflexivity. Qed.

Lemma bind_lift_raise {A B} (e : exn) (k : A -> M B) (g : Rng) :
  bind (lift (Raise e)) k g =
  {| value := Raise e; rng_after := g; emitted := [] |}.
Proof. reflexivity. Qed.

Lemma bind_normal {B} (count : nat) (k : Tensor -> M B) (g : Rng) :
  bind (tf_random_normal count) k g =
  let run :=
    k (map (gauss g) (seq (cursor g) count))
      {| gauss := gauss g; cursor := cursor g + count |} in
  {| value := value run; rng_after := rng_after run;
     emitted := NormalDraw count :: emitted run |}.
Proof. reflexivity. Qed.

Lemma value_bind {A B} (m : M A) (k : A -> M B) (g : Rng) :
  value (bind m k g) =
  match value (m g) with
  | Ok a => value (k a (rng_after (m g)))
  | Raise e => Raise e
  end.
Proof. unfold bind. destruct (value (m g)); reflexivity. Qed.

Lemma emitted_bind {A B} (m : M A) (k : A -> M B) (g : Rng) :
  emitted (bind m k g) =
  emitted (m g) ++
  match value (m g) with
  | Ok a => emitted (k a (rng_after (m g)))
  | Raise _ => []
  end.
Proof.
  unfold bind. destruct (value (m g)); simpl;
    [reflexivity | rewrite app_nil_r; reflexivity].
Qed.

(** ** The DDIM step *)

Lemma get_x_prev_and_pred_x0_value (self : Text2Image) (x e_t : Tensor)
    (index : Z) (a_t a_prev temperature : R) (g : Rng) :
  value (get_x_prev_and_pred_x0 self x e_t index a_t a_prev temperature g) =
  ddim_value x e_t a_t a_prev.
Proof.
  unfold get_x_prev_and_pred_x0, ddim_value.
  destruct (Py.sqrt (1 - a_t)) as [s1|]; [| reflexivity].
  rewrite bind_lift_ok. cbn [rbind].
  destruct (T.sub InvalidArgumentError x (T.scale s1 e_t)) as [num|];
    [| reflexivity].
  rewrite bind_lift_ok. cbn [rbind].
  destruct (Py.sqrt a_t) as [s2|]; [| reflexivity].
  rewrite bind_lift_ok. cbn [rbind].
  destruct (Py.sqrt (1 - a_prev - 0 ^ 2)) as [s3|]; [| reflexivity].
  rewrite bind_lift_ok. cbn [rbind].
  rewrite value_bind. simpl value at 1. cbv beta iota.
  destruct (Py.sqrt a_prev) as [s4|]; [| reflexivity].
  rewrite bind_lift_ok. cbn [rbind].
  destruct (T.add InvalidArgumentError (T.scale s4 (T.div_scalar num s2))
              (T.scale s3 e_t)) as [xp|]; reflexivity.
Qed.

Lemma ddim_value_in_range (x e_t : Tensor) (a_t a_prev : R) :
  length x = length e_t ->
  (0 < a_t <= 1)%R -> (0 < a_prev <= 1)%R ->
  ddim_value x e_t a_t a_prev =
  Ok (pointwise
        (fun xv ev =>
           sqrt a_prev * ((xv - sqrt (1 - a_t) * ev) / sqrt a_t)
           + sqrt (1 - a_prev) * ev)%R x e_t,
      pointwise (fun xv ev => (xv - sqrt (1 - a_t) * ev) / sqrt a_t)%R x e_t).
Proof.
  intros Hlen Ht Hp. unfold ddim_value.
  rewrite (sqrt_ok (1 - a_t)) by lra. cbn [rbind].
  unfold T.sub, T.add, T.scale, T.div_scalar.
  rewrite broadcast_ok by (rewrite length_map; exact Hlen). cbn [rbind].
  rewrite (sqrt_ok a_t) by lra. cbn [rbind].
  replace (1 - a_prev - 0 ^ 2)%R with (1 - a_prev)%R by ring.
  rewrite (sqrt_ok (1 - a_prev)) by lra. cbn [rbind].
  rewrite (sqrt_ok a_prev) by lra. cbn [rbind].
  rewrite pointwise_map_r, !map_pointwise.
  rewrite broadcast_ok
    by (rewrite pointwise_length, length_map by exact Hlen; exact Hlen).
  cbn [rbind]. rewrite pointwise_map_r, pointwise_nest. reflexivity.
Qed.

(** C1: for tensors [x] and [e_t] of the same shape and [a_t], [a_prev]
    in (0, 1], the step returns [(x_prev, pred_x0)] with
    [pred_x0 = (x - sqrt(1 - a_t) * e_t) / sqrt(a_t)] and
    [x_prev = sqrt(a_prev) * pred_x0 + sqrt(1 - a_prev) * e_t],
    elementwise and in this operation order. *)
Theorem get_x_prev_and_pred_x0_formula (self : Text2Image) (x e_t : Tensor)
    (index : Z) (a_t a_prev temperature : R) (g : Rng) :
  length x = length e_t ->
  (0 < a_t <= 1)%R -> (0 < a_prev <= 1)%R ->
  let pred_x0 :=
    pointwise (fun xv ev => (xv - sqrt (1 - a_t) * ev) / sqrt a_t)%R x e_t in
  let x_prev :=
    pointwise (fun pv ev => sqrt a_prev * pv + sqrt (1 - a_prev) * ev)%R
              pred_x0 e_t in
  value (get_x_prev_and_pred_x0 self x e_t index a_t a_prev temperature g) =
  Ok (x_prev, pred_x0).
Proof.
  intros Hlen Ht Hp pred_x0 x_prev.
  rewrite get_x_prev_and_pred_x0_value.
  rewrite ddim_value_in_range by assumption.
  subst x_prev pred_x0. rewrite pointwise_nest. reflexivity.
Qed.

Lemma get_x_prev_and_pred_x0_formula_witness :
  length [1; 2]%R = length [0; 1]%R /\
  (0 < 1 / 2 <= 1)%R /\ (0 < 1 <= 1)%R /\
  let pred_x0 :=
    pointwise (fun xv ev => (xv - sqrt (1 - 1 / 2) * ev) / sqrt (1 / 2))%R
              [1; 2]%R [0; 1]%R in
  let x_prev :=
    pointwise (fun pv ev => sqrt 1 * pv + sqrt (1 - 1) * ev)%R
              pred_x0 [0; 1]%R in
  value (get_x_prev_and_pred_x0 stub [1; 2]%R [0; 1]%R 0 (1 / 2) 1 1 rng0) =
  Ok (x_prev, pred_x0).
Proof.
  split; [reflexivity |]. split; [lra |]. split; [lra |].
  apply (get_x_prev_and_pred_x0_formula stub [1; 2]%R [0; 1]%R 0
           (1 / 2)%R 1%R 1%R rng0); [reflexivity | lra | lra].
Defined.

(** C6 (as amended): in exact real arithmetic, with [a_t = a_prev] in
    (0, 1] and a zero noise estimate of the shape of [x], the step
    returns [x_prev = x] (and [pred_x0 = x / sqrt(a_t)]). *)
Theorem get_x_prev_and_pred_x0_identity (self : Text2Image) (x : Tensor)
    (index : Z) (a temperature : R) (g : Rng) :
  (0 < a <= 1)%R ->
  value (get_x_prev_and_pred_x0 self x (repeat 0%R (length x)) index
           a a temperature g) =
  Ok (x, T.div_scalar x (sqrt a)).
Proof.
  intros Ha.
  rewrite get_x_prev_and_pred_x0_value.
  rewrite ddim_value_in_range; [| rewrite repeat_length; reflexivity | assumption ..].
  rewrite !pointwise_const_r. unfold T.div_scalar.
  assert (Hs : (0 < sqrt a)%R) by (apply sqrt_lt_R0; lra).
  f_equal. f_equal.
  - rewrite <- (map_id x) at 2. apply map_ext. intros v. field. lra.
  - apply map_ext. intros v. field. lra.
Qed.

Lemma get_x_prev_and_pred_x0_identity_witness :
  (0 < 1 / 2 <= 1)%R /\
  value (get_x_prev_and_pred_x0 stub [1; 3]%R (repeat 0%R (length [1; 3]%R)) 2
           (1 / 2) (1 / 2) 1 rng0) =
  Ok ([1; 3]%R, T.div_scalar [1; 3]%R (sqrt (1 / 2))).
Proof.
  split; [lra |].
  apply (get_x_prev_and_pred_x0_identity stub [1; 3]%R 2 (1 / 2)%R 1%R rng0).
  lra.
Defined.

(** C6 (as stated) fails in the arithmetic of the program: at
    [x = [1.0]], zero noise and [a_t = a_prev = 0.5] the binary32 step
    computes [pred_x0 = 1.4142135] and [x_prev = 0.99999994], which is
    not [x]. *)
Lemma get_x_prev_and_pred_x0_identity_rounds :
  Ieee.get_x_prev_and_pred_x0
    [Ieee.single 1 0] [S754_zero false]
    (Ieee.double 1 (-1)) (Ieee.double 1 (-1)) =
  Ok ([S754_finite false 16777215 (-24)], [S754_finite false 11863283 (-23)])
  /\ SFeqb (S754_finite false 16777215 (-24)) (Ieee.single 1 0) = false.
Proof. split; vm_compute; reflexivity. Qed.

(** C10: the pair returned by the step does not depend on [index], on
    [temperature] or on the state of the random generator: two calls on
    the same [(x, e_t, a_t, a_prev)] return the same result (or raise the
    same exception), whatever those are. *)
Theorem get_x_prev_and_pred_x0_ignores_noise (self : Text2Image)
    (x e_t : Tensor) (a_t a_prev : R)
    (index index' : Z) (temperature temperature' : R) (g g' : Rng) :
  value (get_x_prev_and_pred_x0 self x e_t index a_t a_prev temperature g) =
  value (get_x_prev_and_pred_x0 self x e_t index' a_t a_prev temperature' g').
Proof. rewrite !get_x_prev_and_pred_x0_value. reflexivity. Qed.

(** The step nevertheless consumes the generator: one sample per element
    of [x] is drawn on every call. *)
Lemma get_x_prev_and_pred_x0_draws (self : Text2Image) (x e_t : Tensor)
    (index : Z) (a_t a_prev temperature : R) (g : Rng) :
  length x = length e_t ->
  (0 < a_t <= 1)%R -> (0 < a_prev <= 1)%R ->
  let run := get_x_prev_and_pred_x0 self x e_t index a_t a_prev temperature g in
  rng_after run = {| gauss := gauss g; cursor := cursor g + length x |} /\
  emitted run = [NormalDraw (length x)].
Proof.
  intros Hlen Ht Hp run. subst run. unfold get_x_prev_and_pred_x0.
  rewrite (sqrt_ok (1 - a_t)) by lra. rewrite bind_lift_ok.
  unfold T.sub, T.add.
  rewrite broadcast_ok by (unfold T.scale; rewrite length_map; exact Hlen).
  rewrite bind_lift_ok.
  rewrite (sqrt_ok a_t) by lra. rewrite bind_lift_ok.
  replace (1 - a_prev - 0 ^ 2)%R with (1 - a_prev)%R by ring.
  rewrite (sqrt_ok (1 - a_prev)) by lra. rewrite bind_lift_ok.
  rewrite bind_normal.
  rewrite (sqrt_ok a_prev) by lra. rewrite bind_lift_ok.
  rewrite broadcast_ok.
  - split; reflexivity.
  - unfold T.scale, T.div_scalar.
    rewrite !length_map, pointwise_length, Hlen by (rewrite length_map; exact Hlen).
    reflexivity.
Qed.

(** ** The timestep embedding *)

Lemma broadcast_scalar (t : R) (l : Tensor) :
  T.broadcast_mul [t] l = Ok (map (fun f => t * f)%R l).
Proof. destruct l as [|f [|f' l]]; reflexivity. Qed.

Lemma arange_ramp (half : Z) :
  Np.arange 0 half 1 = Ok (map Z.of_nat (seq 0 (Z.to_nat half))).
Proof.
  rewrite arange_ok by lia. unfold Np.arange_len.
  rewrite Z.div_1_r. replace (- (0 - half)) with half by ring.
  f_equal. apply map_ext. intros i. ring.
Qed.

Lemma timestep_embedding_ok (self : Text2Image) (t dim : Z) (max_period : R) :
  (0 < max_period)%R ->
  timestep_embedding self [IZR t] dim max_period =
  Ok (let args :=
        map (fun i => IZR t * exp (- ln max_period * INR i / IZR (dim / 2)))%R
            (seq 0 (Z.to_nat (dim / 2))) in
      map cos args ++ map sin args).
Proof.
  intros Hp. unfold timestep_embedding.
  rewrite log_ok by assumption. cbn [rbind].
  rewrite arange_ramp. cbn [rbind].
  rewrite broadcast_scalar. cbn [rbind].
  rewrite !map_map. cbv zeta. rewrite ?map_map.
  do 2 f_equal; apply map_ext; intros i; rewrite <- INR_IZR_INZ; reflexivity.
Qed.

(** C9: for an integer timestep [t], an even positive [dim] and
    [max_period > 1], the embedding is the vector [cos(t * freqs)]
    followed by [sin(t * freqs)], of length [dim], where
    [freqs[i] = exp(-ln(max_period) * i / half)] for [i] in [0, half) and
    [half = dim / 2]; it is a function of these three arguments alone. *)
Theorem timestep_embedding_formula (self : Text2Image) (t dim : Z)
    (max_period : R) :
  0 < dim -> dim mod 2 = 0 -> (1 < max_period)%R ->
  let half := dim / 2 in
  let freqs :=
    map (fun i => exp (- ln max_period * INR i / IZR half))%R
        (seq 0 (Z.to_nat half)) in
  let args := map (fun f => IZR t * f)%R freqs in
  timestep_embedding self [IZR t] dim max_period =
    Ok (map cos args ++ map sin args) /\
  length (map cos args ++ map sin args) = Z.to_nat dim /\
  (forall self', timestep_embedding self' [IZR t] dim max_period =
                 timestep_embedding self [IZR t] dim max_period).
Proof.
  intros Hdim Heven Hp half freqs args. subst args freqs half.
  split; [| split].
  - rewrite timestep_embedding_ok by lra. cbv zeta.
    rewrite !map_map. reflexivity.
  - rewrite length_app, !length_map, length_seq.
    pose proof (Z.div_mod dim 2 ltac:(lia)) as Hd. lia.
  - intros self'. rewrite !timestep_embedding_ok by lra. reflexivity.
Qed.

Lemma timestep_embedding_formula_witness :
  0 < 4 /\ 4 mod 2 = 0 /\ (1 < 10000)%R /\
  let half := 4 / 2 in
  let freqs :=
    map (fun i => exp (- ln 10000 * INR i / IZR half))%R
        (seq 0 (Z.to_nat half)) in
  let args := map (fun f => IZR 3 * f)%R freqs in
  timestep_embedding stub [IZR 3] 4 10000 =
    Ok (map cos args ++ map sin args) /\
  length (map cos args ++ map sin args) = Z.to_nat 4 /\
  (forall self', timestep_embedding self' [IZR 3] 4 10000 =
                 timestep_embedding stub [IZR 3] 4 10000).
Proof.
  split; [lia |]. split; [reflexivity |]. split; [lra |].
  apply (timestep_embedding_formula stub 3 4 10000%R); [lia | reflexivity | lra].
Defined.

(** ** Classifier-free guidance *)

Lemma pointwise_nest_swap (f g : R -> R -> R) (a b : Tensor) :
  pointwise f a (pointwise g b a) = pointwise (fun u v => f u (g v u)) a b.
Proof.
  unfold pointwise. revert b.
  induction a as [|x a IH]; intros [|y b]; simpl; try reflexivity.
  f_equal. apply IH.
Qed.

Lemma get_model_output_value (self : Text2Image) (latent : Tensor) (t : Z)
    (context unconditional_context : Tensor) (scale : R) (g : Rng) :
  let u := diffusion_model self latent (t_emb self t) unconditional_context in
  let c := diffusion_model self latent (t_emb self t) context in
  value (get_model_output self latent t context unconditional_context scale g) =
  (diff <- T.sub ValueError c u ;;
   T.add ValueError u (T.scale scale diff))%result.
Proof.
  intros u c. subst u c. unfold get_model_output, t_emb.
  rewrite timestep_embedding_ok by lra.
  rewrite bind_lift_ok. reflexivity.
Qed.

(** C4 (as amended): when the two noise estimates [u] (unconditional)
    and [c] (conditional) have the same shape, the guided estimate is
    [u + scale * (c - u)] elementwise, in this operation order; in exact
    real arithmetic it is [c] at scale 1 and [u] at scale 0. *)
Theorem get_model_output_guidance (self : Text2Image) (latent : Tensor)
    (t : Z) (context unconditional_context : Tensor) (scale : R) (g : Rng) :
  let u := diffusion_model self latent (t_emb self t) unconditional_context in
  let c := diffusion_model self latent (t_emb self t) context in
  length u = length c ->
  value (get_model_output self latent t context unconditional_context
           scale g) =
    Ok (pointwise (fun uv cv => uv + scale * (cv - uv))%R u c) /\
  value (get_model_output self latent t context unconditional_context
           1 g) = Ok c /\
  value (get_model_output self latent t context unconditional_context
           0 g) = Ok u.
Proof.
  intros u c Hlen.
  assert (Hgen : forall s,
    value (get_model_output self latent t context unconditional_context s g) =
    Ok (pointwise (fun uv cv => uv + s * (cv - uv))%R u c)).
  { intros s. rewrite get_model_output_value. fold u c.
    unfold T.sub, T.add, T.scale.
    rewrite broadcast_ok by (symmetry; exact Hlen). cbn [rbind].
    rewrite map_pointwise.
    rewrite broadcast_ok by (rewrite pointwise_length; congruence).
    rewrite pointwise_nest_swap. reflexivity. }
  split; [| split].
  - apply Hgen.
  - rewrite Hgen. f_equal. apply pointwise_snd; [exact Hlen |].
    intros uv cv. ring.
  - rewrite Hgen. f_equal. apply pointwise_fst; [exact Hlen |].
    intros uv cv. ring.
Qed.

Lemma get_model_output_guidance_witness :
  let u := diffusion_model stub_echo_context [1; 2]%R
             (t_emb stub_echo_context 1) [1; 2]%R in
  let c := diffusion_model stub_echo_context [1; 2]%R
             (t_emb stub_echo_context 1) [3; 5]%R in
  length u = length c /\
  value (get_model_output stub_echo_context [1; 2]%R 1 [3; 5]%R [1; 2]%R
           (15 / 2) rng0) =
    Ok (pointwise (fun uv cv => uv + 15 / 2 * (cv - uv))%R u c) /\
  value (get_model_output stub_echo_context [1; 2]%R 1 [3; 5]%R [1; 2]%R
           1 rng0) = Ok c /\
  value (get_model_output stub_echo_context [1; 2]%R 1 [3; 5]%R [1; 2]%R
           0 rng0) = Ok u.
Proof.
  split; [reflexivity |].
  apply (get_model_output_guidance stub_echo_context [1; 2]%R 1
           [3; 5]%R [1; 2]%R (15 / 2)%R rng0).
  reflexivity.
Defined.

(** C4 (as stated) fails in the arithmetic of the program: for the
    binary32 estimates [u = [1e8]] and [c = [1.0]] the difference [c - u]
    rounds to [-1e8], and the combination at scale 1.0 is [0.0], not
    [c]. *)
Lemma get_model_output_guidance_rounds :
  Ieee.guided [Ieee.single 100000000 0] [Ieee.single 1 0] (Ieee.double 1 0) =
  Ok [S754_zero false]
  /\ SFeqb (S754_zero false) (Ieee.single 1 0) = false.
Proof. split; vm_compute; reflexivity. Qed.

(** ** Which exceptions the sampler raises

    [AssertionError] has a single source, the prompt-length check: no
    other step of [generate] raises it. *)

Lemma rsafe_ok {A} (a : A) : rsafe (Ok a).
Proof. discriminate. Qed.

Lemma rsafe_rbind {A B} (r : Result A) (k : A -> Result B) :
  rsafe r -> (forall a, rsafe (k a)) -> rsafe (rbind r k).
Proof.
  intros Hr Hk. destruct r as [a|e]; simpl; [apply Hk |].
  intros E. apply Hr. congruence.
Qed.

Lemma rsafe_floordiv (a b : Z) : rsafe (Py.floordiv a b).
Proof. unfold Py.floordiv. destruct (b =? 0); discriminate. Qed.

Lemma rsafe_arange (start stop step : Z) : rsafe (Np.arange start stop step).
Proof. unfold Np.arange. destruct (step =? 0); discriminate. Qed.

Lemma rsafe_getitem {A} (l : list A) (i : Z) : rsafe (Py.getitem l i).
Proof.
  unfold Py.getitem.
  destruct ((0 <=? _) && _); [| discriminate].
  destruct (nth_error l _); discriminate.
Qed.

Lemma rsafe_rmap {A B} (f : A -> Result B) (l : list A) :
  (forall a, rsafe (f a)) -> rsafe (rmap f l).
Proof.
  intros Hf. induction l as [|a l IH]; simpl; [discriminate |].
  apply rsafe_rbind; [apply Hf | intros b].
  apply rsafe_rbind; [exact IH | intros bs; discriminate].
Qed.

Lemma rsafe_sqrt (r : R) : rsafe (Py.sqrt r).
Proof. unfold Py.sqrt. destruct (Rlt_dec r 0); discriminate. Qed.

Lemma rsafe_log (r : R) : rsafe (Py.log r).
Proof. unfold Py.log. destruct (Rle_dec r 0); discriminate. Qed.

Lemma rsafe_zip_with (err : exn) (f : R -> R -> R) (a b : Tensor) :
  err <> AssertionError -> rsafe (T.zip_with err f a b).
Proof.
  intros He. revert b.
  induction a as [|x a IH]; intros [|y b]; simpl;
    try discriminate; try (intros E; injection E; assumption).
  apply rsafe_rbind; [apply IH | intros r; discriminate].
Qed.

Lemma rsafe_broadcast (err : exn) (f : R -> R -> R) (a b : Tensor) :
  err <> AssertionError -> rsafe (T.broadcast err f a b).
Proof.
  intros He. unfold T.broadcast. destruct (Nat.eqb _ _).
  - apply rsafe_zip_with. exact He.
  - destruct a as [|x [|x' a]]; destruct b as [|y [|y' b]];
      try discriminate; intros E; injection E; exact He.
Qed.

Lemma rsafe_broadcast_mul (a b : Tensor) : rsafe (T.broadcast_mul a b).
Proof.
  unfold T.broadcast_mul. destruct (Nat.eqb _ _).
  - apply rsafe_zip_with. discriminate.
  - destruct a as [|x [|x' a]]; destruct b as [|y [|y' b]]; discriminate.
Qed.

Lemma rsafe_timestep_embedding (self : Text2Image) (ts : Tensor) (dim : Z)
    (max_period : R) :
  rsafe (timestep_embedding self ts dim max_period).
Proof.
  unfold timestep_embedding.
  apply rsafe_rbind; [apply rsafe_log | intros l].
  apply rsafe_rbind; [apply rsafe_arange | intros ramp].
  apply rsafe_rbind; [apply rsafe_broadcast_mul | intros args].
  discriminate.
Qed.

Lemma msafe_ret {A} (a : A) : msafe (ret a).
Proof. intros g. discriminate. Qed.

Lemma msafe_lift {A} (r : Result A) : rsafe r -> msafe (lift r).
Proof. intros Hr g. exact Hr. Qed.

Lemma msafe_emit (e : event) : msafe (emit e).
Proof. intros g. discriminate. Qed.

Lemma msafe_normal (count : nat) : msafe (tf_random_normal count).
Proof. intros g. discriminate. Qed.

Lemma msafe_bind {A B} (m : M A) (k : A -> M B) :
  msafe m -> (forall a, msafe (k a)) -> msafe (bind m k).
Proof.
  intros Hm Hk g. rewrite value_bind.
  specialize (Hm g). destruct (value (m g)) as [a|e]; [apply Hk |].
  intros E. apply Hm. congruence.
Qed.

Lemma msafe_for_each {A S} (l : list A) (body : S -> A -> M S) (s : S) :
  (forall s a, msafe (body s a)) -> msafe (for_each l body s).
Proof.
  intros Hb. revert s. induction l as [|a l IH]; intros s; simpl.
  - apply msafe_ret.
  - apply msafe_bind; [apply Hb | exact IH].
Qed.

Create HintDb safe.
#[local] Hint Resolve rsafe_ok rsafe_floordiv rsafe_arange rsafe_getitem
  rsafe_sqrt rsafe_log rsafe_broadcast_mul rsafe_timestep_embedding
  msafe_ret msafe_emit msafe_normal : safe.
#[local] Hint Extern 2 (rsafe (T.zip_with _ _ _ _)) =>
  apply rsafe_zip_with; discriminate : safe.
#[local] Hint Extern 2 (rsafe (T.add _ _ _)) =>
  apply rsafe_broadcast; discriminate : safe.
#[local] Hint Extern 2 (rsafe (T.sub _ _ _)) =>
  apply rsafe_broadcast; discriminate : safe.

Ltac safe_step :=
  match goal with
  | |- msafe (bind _ _) => apply msafe_bind; [| intros ?]
  | |- msafe (lift _) => apply msafe_lift
  | |- rsafe (rbind _ _) => apply rsafe_rbind; [| intros ?]
  | |- msafe (match ?p with (_, _) => _ end) => destruct p
  | |- _ => solve [auto with safe]
  end.

Lemma msafe_predict_text (self : Text2Image) (tokens pos : list (list Z)) :
  msafe (text_encoder_predict self tokens pos).
Proof. unfold text_encoder_predict. repeat safe_step. Qed.

Lemma msafe_predict_diffusion (self : Text2Image) (l e c : Tensor) :
  msafe (diffusion_model_predict self l e c).
Proof. unfold diffusion_model_predict. repeat safe_step. Qed.

Lemma msafe_predict_decoder (self : Text2Image) (l : Tensor) :
  msafe (decoder_predict self l).
Proof. unfold decoder_predict. repeat safe_step. Qed.

#[local] Hint Resolve msafe_predict_text msafe_predict_diffusion
  msafe_predict_decoder : safe.

Lemma msafe_get_model_output (self : Text2Image) (latent : Tensor) (t : Z)
    (context unconditional_context : Tensor) (scale : R) :
  msafe (get_model_output self latent t context unconditional_context scale).
Proof. unfold get_model_output. repeat safe_step. Qed.

Lemma msafe_get_x_prev_and_pred_x0 (self : Text2Image) (x e_t : Tensor)
    (index : Z) (a_t a_prev temperature : R) :
  msafe (get_x_prev_and_pred_x0 self x e_t index a_t a_prev temperature).
Proof. unfold get_x_prev_and_pred_x0. repeat safe_step. Qed.

#[local] Hint Resolve msafe_get_model_output msafe_get_x_prev_and_pred_x0
  : safe.

Lemma rsafe_timesteps (n_steps : Z) : rsafe (timesteps n_steps).
Proof. unfold timesteps. repeat safe_step. Qed.

Lemma rsafe_alphas (ts : list Z) : rsafe (alphas ts).
Proof. unfold alphas. apply rsafe_rmap. intros t. apply rsafe_getitem. Qed.

#[local] Hint Resolve rsafe_timesteps rsafe_alphas : safe.

Ltac safe_walk :=
  repeat first
    [ safe_step
    | match goal with
      | |- msafe (for_each _ _ _) => apply msafe_for_each; intros ? [? ?]
      end ].

(** ** Prompt validation in [generate] *)


Lemma generate_rejects (self : Text2Image) (prompt : string)
    (n_steps : Z) (unconditional_guidance_scale temperature : R) (g : Rng) :
  (77 <= length (tokenizer self prompt))%nat ->
  generate self prompt n_steps unconditional_guidance_scale temperature g =
  {| value := Raise AssertionError; rng_after := g; emitted := [] |}.
Proof.
  intros Hge. unfold generate, assert.
  destruct (Nat.ltb_spec (length (tokenizer self prompt)) 77); [lia |].
  apply bind_lift_raise.
Qed.

Lemma generate_accepts (self : Text2Image) (prompt : string)
    (n_steps : Z) (unconditional_guidance_scale temperature : R) (g : Rng) :
  let run :=
    generate self prompt n_steps unconditional_guidance_scale temperature g in
  (length (tokenizer self prompt) < 77)%nat ->
  value run <> Raise AssertionError /\
  exists later,
    emitted run =
    TextEncoderCall
      (repeat (pad_phrase (tokenizer self prompt)) (batch_size self))
      (repeat (map Z.of_nat (seq 0 77)) (batch_size self))
    :: later.
Proof.
  intros run Hlt. subst run. unfold generate, assert.
  destruct (Nat.ltb_spec (length (tokenizer self prompt)) 77); [| lia].
  rewrite bind_lift_ok. split.
  - match goal with
    | |- value (?m g) <> _ =>
        assert (Hsafe : msafe m) by safe_walk; apply Hsafe
    end.
  - rewrite emitted_bind. simpl emitted at 1. cbn [app].
    eexists. reflexivity.
Qed.


Example generate_76_tokens :
  value (generate (stub_tokens 76) "a prompt" 25 (15 / 2) 1 rng0)
    <> Raise AssertionError /\
  exists later,
    emitted (generate (stub_tokens 76) "a prompt" 25 (15 / 2) 1 rng0) =
    TextEncoderCall [repeat 320 76 ++ [49407]] [map Z.of_nat (seq 0 77)]
    :: later.
Proof.
  apply (generate_accepts (stub_tokens 76) "a prompt" 25 (15 / 2)%R 1%R rng0).
  simpl. lia.
Qed.

Example generate_77_tokens :
  generate (stub_tokens 77) "a prompt" 25 (15 / 2) 1 rng0 =
  {| value := Raise AssertionError; rng_after := rng0; emitted := [] |}.
Proof. apply generate_rejects. simpl. lia. Qed.

(** * Further properties of the sampler *)

(** ** The schedule outside and inside its intended range *)

Lemma timesteps_degenerate (n_steps : Z) :
  (n_steps = 0 \/ 1000 < n_steps ->
   timesteps n_steps = Raise ZeroDivisionError) /\
  (n_steps < 0 -> timesteps n_steps = Ok []).
Proof.
  unfold timesteps, Py.floordiv. split.
  - intros [-> | Hbig]; [reflexivity |].
    destruct (Z.eqb_spec n_steps 0); [lia |]. cbn [rbind].
    rewrite Z.div_small by lia. reflexivity.
  - intros Hneg.
    destruct (Z.eqb_spec n_steps 0); [lia |]. cbn [rbind].
    pose proof (Z.div_mod 1000 n_steps ltac:(lia)) as Hd.
    pose proof (Z.mod_neg_bound 1000 n_steps Hneg) as Hr.
    set (s := 1000 / n_steps) in *.
    assert (Hs : s < 0) by nia.
    unfold Np.arange. destruct (Z.eqb_spec s 0); [lia |].
    unfold Np.arange_len.
    pose proof (Z.div_mod (1 - 1000) s ltac:(lia)) as Hd'.
    pose proof (Z.mod_neg_bound (1 - 1000) s Hs) as Hr'.
    assert (Hq : 0 <= (1 - 1000) / s) by nia.
    replace (Z.to_nat (- ((1 - 1000) / s))) with 0%nat by lia.
    reflexivity.
Qed.

(** X1: the schedule has no guard on [n_steps].  At 0 the floor division
    raises; above 1000 the stride is 0 and [np.arange] raises; below 0 the
    stride is negative and the schedule is empty. *)
Theorem timesteps_out_of_range (n_steps : Z) :
  (n_steps = 0 \/ 1000 < n_steps ->
   timesteps n_steps = Raise ZeroDivisionError) /\
  (n_steps < 0 -> timesteps n_steps = Ok []).
Proof.
  destruct (timesteps_degenerate n_steps) as [Hzero Hneg].
  split; [exact Hzero | exact Hneg].
Qed.

(** X2: for [n_steps] in [1, 999] the schedule starts at timestep 1 and
    holds at least [n_steps] timesteps, exactly [n_steps] when [n_steps]
    divides 1000. *)
Theorem timesteps_length_at_least (n_steps : Z) :
  1 <= n_steps <= 999 ->
  exists ts,
    timesteps n_steps = Ok ts /\
    nth_error ts 0 = Some 1 /\
    n_steps <= Z.of_nat (length ts) /\
    (1000 mod n_steps = 0 -> Z.of_nat (length ts) = n_steps).
Proof.
  intros Hn.
  assert (Hn' : 1 <= n_steps <= 1000) by lia.
  destruct (timesteps_ok n_steps Hn') as [E Hs].
  eexists. split; [exact E |].
  pose proof (timesteps_length n_steps _ Hn' E) as Hlen.
  pose proof (Z.div_mod 1000 n_steps ltac:(lia)) as Hd.
  pose proof (Z.mod_pos_bound 1000 n_steps ltac:(lia)) as Hr.
  set (s := 1000 / n_steps) in *.
  pose proof (Z.div_mod (999 + s - 1) s ltac:(lia)) as Hd'.
  pose proof (Z.mod_pos_bound (999 + s - 1) s Hs) as Hr'.
  set (len := Z.of_nat _) in *. 
  set (q := (999 + s - 1) / s) in *.
  assert (Hge : n_steps <= q).
  { assert (n_steps * s <= 998 + s) by nia. nia. }
  split; [| split].
  - assert (0 < q) by lia.
    assert (Hpos : (0 < Np.arange_len 1 1000 s)%nat).
    { subst len. rewrite length_map, length_seq in Hlen. lia. }
    destruct (Np.arange_len 1 1000 s); [lia |]. reflexivity.
  - lia.
  - intros Hdiv. rewrite Hlen. rewrite Hdiv in Hd.
    assert (2 <= s) by nia. nia.
Qed.

Lemma timesteps_length_at_least_witness :
  1 <= 50 <= 999 /\
  exists ts,
    timesteps 50 = Ok ts /\
    nth_error ts 0 = Some 1 /\
    50 <= Z.of_nat (length ts) /\
    (1000 mod 50 = 0 -> Z.of_nat (length ts) = 50).
Proof. split; [lia | apply (timesteps_length_at_least 50); lia]. Defined.

(** ** Coefficients met by the loop *)

Lemma Qltb_lt (a b : Q) : negb (Qle_bool a b) = true -> (b < a)%Q.
Proof.
  intros H. apply Qnot_le_lt. intros Hle.
  apply Qle_bool_iff in Hle. rewrite Hle in H. discriminate.
Qed.

Lemma decreasingb_sorted (l : list Q) :
  decreasingb l = true -> StronglySorted (fun a b => (b < a)%Q) l.
Proof.
  intros H. apply Sorted_StronglySorted.
  - intros a b c Hab Hbc. eapply Qlt_trans; eassumption.
  - induction l as [|a [|b l] IH]; simpl in H.
    + constructor.
    + constructor; constructor.
    + apply andb_prop in H. destruct H as [Hab Hrest].
      constructor; [apply IH; exact Hrest |].
      constructor. apply Qltb_lt. exact Hab.
Qed.

Lemma sorted_lookup {A} (r : A -> A -> Prop) (l : list A) :
  StronglySorted r l ->
  forall i j a b, (i < j)%nat ->
    nth_error l i = Some a -> nth_error l j = Some b -> r a b.
Proof.
  induction 1 as [|x l Hs IH Hx]; intros i j a b Hij Ha Hb.
  - destruct i; discriminate.
  - destruct j as [|j]; [lia |]. simpl in Hb.
    destruct i as [|i]; simpl in Ha.
    + injection Ha as <-. rewrite Forall_forall in Hx.
      apply Hx. eapply nth_error_In. exact Hb.
    + apply (IH i j); [lia | assumption | assumption].
Qed.

Lemma alphas_cumprod_sorted :
  StronglySorted (fun a b => (b < a)%Q) _ALPHAS_CUMPROD.
Proof. apply decreasingb_sorted. vm_compute. reflexivity. Qed.

Lemma alphas_cumprod_bounds (a : Q) :
  In a _ALPHAS_CUMPROD -> (0 < a)%Q /\ (a < 1)%Q.
Proof.
  assert (H : forallb (fun a => negb (Qle_bool a 0) && negb (Qle_bool 1 a))
                      _ALPHAS_CUMPROD = true) by (vm_compute; reflexivity).
  rewrite forallb_forall in H. intros Hin.
  apply H in Hin. apply andb_prop in Hin. destruct Hin as [H0 H1].
  split; apply Qltb_lt; assumption.
Qed.

Lemma enumerate_from_In {A} (l : list A) (k : nat) (idx : Z) (t : A) :
  In (idx, t) (combine (map Z.of_nat (seq k (length l))) l) <->
  exists i, idx = Z.of_nat (k + i) /\ nth_error l i = Some t.
Proof.
  revert k. induction l as [|a l IH]; intros k; simpl.
  - split; [contradiction |]. intros [[|i] [_ H]]; discriminate.
  - split.
    + intros [E | Hin].
      * injection E as <- <-. exists 0%nat.
        split; [f_equal; lia | reflexivity].
      * apply IH in Hin. destruct Hin as [i [-> Hi]].
        exists (S i). split; [f_equal; lia | exact Hi].
    + intros [[|i] [-> Hi]]; simpl in Hi.
      * left. injection Hi as <-. f_equal. f_equal. lia.
      * right. apply IH. exists i. split; [f_equal; lia | exact Hi].
Qed.

Lemma enumerate_In {A} (l : list A) (idx : Z) (t : A) :
  In (idx, t) (Py.enumerate l) <->
  0 <= idx /\ nth_error l (Z.to_nat idx) = Some t.
Proof.
  unfold Py.enumerate. rewrite enumerate_from_In. split.
  - intros [i [-> Hi]]. simpl. rewrite Nat2Z.id. split; [lia | exact Hi].
  - intros [H0 Hi]. exists (Z.to_nat idx). simpl.
    rewrite Z2Nat.id by assumption. split; [reflexivity | exact Hi].
Qed.

(** What a valid [n_steps] gives: the schedule, its coefficients and the
    facts the loop relies on. *)
Lemma schedule_facts (n_steps : Z) :
  1 <= n_steps <= 1000 ->
  exists ts al,
    timesteps n_steps = Ok ts /\
    alphas ts = Ok al /\
    length al = length ts /\
    (0 < length ts)%nat /\
    StronglySorted Z.lt ts /\
    Forall (fun t => 1 <= t < 1000) ts /\
    Forall2 (fun t a => nth_error _ALPHAS_CUMPROD (Z.to_nat t) = Some a) ts al.
Proof.
  intros Hn.
  destruct (timesteps_ok n_steps Hn) as [E Hs].
  assert (Hin : forall t, In t (map (fun i => 1 + Z.of_nat i * (1000 / n_steps))
                  (seq 0 (Np.arange_len 1 1000 (1000 / n_steps)))) ->
                1 <= t < 1000).
  { intros t Ht. apply (timesteps_In n_steps _ t Hn E) in Ht. tauto. }
  assert (Hsorted : StronglySorted Z.lt
            (map (fun i => 1 + Z.of_nat i * (1000 / n_steps))
                 (seq 0 (Np.arange_len 1 1000 (1000 / n_steps)))))
    by (apply ramp_sorted; exact Hs).
  assert (Hone : In 1 (map (fun i => 1 + Z.of_nat i * (1000 / n_steps))
                  (seq 0 (Np.arange_len 1 1000 (1000 / n_steps))))).
  { apply (timesteps_In n_steps _ 1 Hn E). split; [lia |].
    replace (1 - 1) with 0 by ring. apply Z.mod_0_l. lia. }
  revert E Hin Hsorted Hone.
  generalize (map (fun i => 1 + Z.of_nat i * (1000 / n_steps))
                  (seq 0 (Np.arange_len 1 1000 (1000 / n_steps)))).
  intros ts E Hin Hsorted Hone.
  assert (Hrange : Forall (fun t => 0 <= t < Z.of_nat (length _ALPHAS_CUMPROD)) ts).
  { apply Forall_forall. intros t Ht. apply Hin in Ht.
    rewrite alphas_cumprod_length. lia. }
  destruct (rmap_getitem_ok _ALPHAS_CUMPROD ts Hrange) as [al [Hal Hall]].
  exists ts, al.
  split; [exact E |]. split; [exact Hal |].
  split; [symmetry; eapply Forall2_length; exact Hall |].
  split; [destruct ts; [contradiction | simpl; lia] |].
  split; [exact Hsorted |].
  split; [apply Forall_forall; exact Hin | exact Hall].
Qed.

(** X3: for [n_steps] in [1, 1000], at every position of the schedule the
    two coefficients handed to the step satisfy
    [0 < alphas[i] < alphas_prev[i] <= 1]: each step moves to a strictly
    less corrupted level. *)
Theorem alphas_below_alphas_prev (n_steps : Z) :
  1 <= n_steps <= 1000 ->
  exists ts al,
    timesteps n_steps = Ok ts /\
    alphas ts = Ok al /\
    forall i a_t a_prev,
      nth_error al i = Some a_t ->
      nth_error (alphas_prev al) i = Some a_prev ->
      (0 < a_t)%Q /\ (a_t < a_prev)%Q /\ (a_prev <= 1)%Q.
Proof.
  intros Hn.
  destruct (schedule_facts n_steps Hn)
    as [ts [al [Hts [Hal [Hlen [Hne [Hsorted [Hrange Hall]]]]]]]].
  exists ts, al. split; [exact Hts |]. split; [exact Hal |].
  assert (Hentry : forall i a, nth_error al i = Some a ->
            exists t, nth_error ts i = Some t /\
                      nth_error _ALPHAS_CUMPROD (Z.to_nat t) = Some a).
  { intros i a Ha.
    destruct (nth_error ts i) as [t|] eqn:Et.
    - destruct (Forall2_lookup _ _ _ Hall i t Et) as [a' [Ha' Hta]].
      exists t. split; [reflexivity | congruence].
    - apply nth_error_None in Et.
      assert (i < length al)%nat by (apply nth_error_Some; congruence). lia. }
  intros i a_t a_prev Ht Hp.
  destruct (Hentry i a_t Ht) as [t [Hti Hta]].
  destruct (alphas_cumprod_bounds a_t (nth_error_In _ _ Hta)) as [H0 H1].
  split; [exact H0 |].
  destruct i as [|i]; simpl in Hp.
  - injection Hp as <-. split.
    + unfold Qlt in *. simpl in *. lia.
    + unfold Qle. simpl. lia.
  - assert (Hi : (S i < length al)%nat) by (apply nth_error_Some; congruence).
    unfold alphas_prev in Hp. rewrite drop_last_lookup in Hp by lia.
    destruct (Hentry i a_prev Hp) as [t' [Hti' Hta']].
    destruct (alphas_cumprod_bounds a_prev (nth_error_In _ _ Hta')) as [_ H1'].
    assert (Hlt : t' < t)
      by (apply (sorted_lookup Z.lt ts Hsorted i (S i)); [lia | assumption ..]).
    rewrite Forall_forall in Hrange.
    pose proof (Hrange t' (nth_error_In _ _ Hti')) as Hr'.
    split.
    + apply (sorted_lookup _ _ alphas_cumprod_sorted
               (Z.to_nat t') (Z.to_nat t)); [lia | assumption ..].
    + unfold Qlt, Qle in *. simpl in *. lia.
Qed.

Lemma alphas_below_alphas_prev_witness :
  1 <= 1000 <= 1000 /\
  exists ts al,
    timesteps 1000 = Ok ts /\
    alphas ts = Ok al /\
    forall i a_t a_prev,
      nth_error al i = Some a_t ->
      nth_error (alphas_prev al) i = Some a_prev ->
      (0 < a_t)%Q /\ (a_t < a_prev)%Q /\ (a_prev <= 1)%Q.
Proof. split; [lia | apply (alphas_below_alphas_prev 1000); lia]. Defined.

Lemma combine_indices {A B} (idx : list B) (l : list A) :
  length idx = length l -> map fst (combine idx l) = idx.
Proof.
  revert l. induction idx as [|i idx IH]; intros [|a l] H; simpl in *;
    try reflexivity; try discriminate.
  f_equal. apply IH. congruence.
Qed.

(** X4: in the order the loop walks it, the schedule is paired with its
    own positions: for every visited [(index, timestep)],
    [timesteps[index] = timestep], so the coefficient [alphas[index]] used
    with a timestep is the table entry of that timestep; the indices
    count down from the last position to 0. *)
Theorem processing_order_aligned (n_steps : Z) :
  1 <= n_steps <= 1000 ->
  exists ts al,
    timesteps n_steps = Ok ts /\
    alphas ts = Ok al /\
    map fst (processing_order ts) =
      rev (map Z.of_nat (seq 0 (length ts))) /\
    Forall (fun p =>
              nth_error ts (Z.to_nat (fst p)) = Some (snd p) /\
              exists a, Py.getitem al (fst p) = Ok a /\
                        Py.getitem _ALPHAS_CUMPROD (snd p) = Ok a)
           (processing_order ts).
Proof.
  intros Hn.
  destruct (schedule_facts n_steps Hn)
    as [ts [al [Hts [Hal [Hlen [Hne [Hsorted [Hrange Hall]]]]]]]].
  exists ts, al. split; [exact Hts |]. split; [exact Hal |]. split.
  - unfold processing_order, Py.reversed, Py.enumerate.
    rewrite map_rev. f_equal. apply combine_indices.
    rewrite length_map, length_seq. reflexivity.
  - unfold processing_order, Py.reversed. apply Forall_rev.
    apply Forall_forall. intros [index t] Hin. simpl.
    apply enumerate_In in Hin. destruct Hin as [H0 Ht].
    split; [exact Ht |].
    destruct (Forall2_lookup _ _ _ Hall _ _ Ht) as [a [Ha Hta]].
    exists a. split.
    + assert (Hi : (Z.to_nat index < length al)%nat)
        by (apply nth_error_Some; congruence).
      destruct (getitem_nonneg al index ltac:(lia)) as [a' [Ha' E]].
      congruence.
    + rewrite Forall_forall in Hrange.
      pose proof (Hrange t (nth_error_In _ _ Ht)) as Hr.
      destruct (getitem_nonneg _ALPHAS_CUMPROD t) as [a' [Ha' E]].
      { rewrite alphas_cumprod_length. lia. }
      congruence.
Qed.

Lemma processing_order_aligned_witness :
  1 <= 25 <= 1000 /\
  exists ts al,
    timesteps 25 = Ok ts /\
    alphas ts = Ok al /\
    map fst (processing_order ts) =
      rev (map Z.of_nat (seq 0 (length ts))) /\
    Forall (fun p =>
              nth_error ts (Z.to_nat (fst p)) = Some (snd p) /\
              exists a, Py.getitem al (fst p) = Ok a /\
                        Py.getitem _ALPHAS_CUMPROD (snd p) = Ok a)
           (processing_order ts).
Proof. split; [lia | apply (processing_order_aligned 25); lia]. Defined.

(** ** The DDIM step: domain, shapes, special coefficients *)







(** The whole outcome of a step on well-formed arguments. *)
Lemma get_x_prev_and_pred_x0_outcome (self : Text2Image) (x e_t : Tensor)
    (index : Z) (a_t a_prev temperature : R) (g : Rng) :
  length x = length e_t ->
  (0 < a_t <= 1)%R -> (0 < a_prev <= 1)%R ->
  get_x_prev_and_pred_x0 self x e_t index a_t a_prev temperature g =
  {| value :=
       Ok (pointwise
             (fun xv ev =>
                sqrt a_prev * ((xv - sqrt (1 - a_t) * ev) / sqrt a_t)
                + sqrt (1 - a_prev) * ev)%R x e_t,
           pointwise (fun xv ev => (xv - sqrt (1 - a_t) * ev) / sqrt a_t)%R
                     x e_t);
     rng_after := {| gauss := gauss g; cursor := cursor g + length x |};
     emitted := [NormalDraw (length x)] |}.
Proof.
  intros Hlen Ht Hp.
  pose proof (get_x_prev_and_pred_x0_value self x e_t index a_t a_prev
                temperature g) as Hv.
  rewrite ddim_value_in_range in Hv by assumption.
  destruct (get_x_prev_and_pred_x0_draws self x e_t index a_t a_prev
              temperature g Hlen Ht Hp) as [Hr He].
  destruct (get_x_prev_and_pred_x0 self x e_t index a_t a_prev temperature g)
    as [v r e].
  simpl in *. subst. reflexivity.
Qed.



(** X8: with [a_prev = a_t] the step returns [x_prev = x] whatever the
    noise estimate is: re-noising the predicted clean latent to the level
    it came from gives the input back. *)
Theorem get_x_prev_and_pred_x0_same_level (self : Text2Image)
    (x e_t : Tensor) (index : Z) (a temperature : R) (g : Rng) :
  length x = length e_t -> (0 < a <= 1)%R ->
  exists pred_x0,
    value (get_x_prev_and_pred_x0 self x e_t index a a temperature g) =
    Ok (x, pred_x0).
Proof.
  intros Hlen Ha.
  rewrite get_x_prev_and_pred_x0_value.
  rewrite ddim_value_in_range by assumption.
  eexists. f_equal. f_equal.
  apply pointwise_fst; [exact Hlen |].
  intros xv ev.
  assert (Hs : (0 < sqrt a)%R) by (apply sqrt_lt_R0; lra).
  field. lra.
Qed.

Lemma get_x_prev_and_pred_x0_same_level_witness :
  length [1; 2]%R = length [4; 7]%R /\ (0 < 1 / 2 <= 1)%R /\
  exists pred_x0,
    value (get_x_prev_and_pred_x0 stub [1; 2]%R [4; 7]%R 0 (1 / 2) (1 / 2)
             1 rng0) =
    Ok ([1; 2]%R, pred_x0).
Proof.
  split; [reflexivity |]. split; [lra |].
  apply (get_x_prev_and_pred_x0_same_level stub [1; 2]%R [4; 7]%R 0
           (1 / 2)%R 1%R rng0); [reflexivity | lra].
Defined.

(** X9: with [a_prev = 1.0], which the loop uses on its last iteration,
    the step returns the predicted clean latent as [x_prev]. *)
Theorem get_x_prev_and_pred_x0_last_step (self : Text2Image)
    (x e_t : Tensor) (index : Z) (a_t temperature : R) (g : Rng) :
  length x = length e_t -> (0 < a_t <= 1)%R ->
  exists pred_x0,
    value (get_x_prev_and_pred_x0 self x e_t index a_t (Q2R 1.0) temperature g)
    = Ok (pred_x0, pred_x0).
Proof.
  intros Hlen Ha.
  assert (E : Q2R 1.0 = 1%R) by (unfold Q2R; simpl; field).
  rewrite E.
  rewrite get_x_prev_and_pred_x0_value.
  rewrite ddim_value_in_range by (try assumption; lra).
  eexists. f_equal. f_equal.
  apply pointwise_ext. intros xv ev.
  replace (1 - 1)%R with 0%R by ring. rewrite sqrt_1, sqrt_0. ring.
Qed.

Lemma get_x_prev_and_pred_x0_last_step_witness :
  length [1; 2]%R = length [4; 7]%R /\ (0 < 1 / 2 <= 1)%R /\
  exists pred_x0,
    value (get_x_prev_and_pred_x0 stub [1; 2]%R [4; 7]%R 0 (1 / 2) (Q2R 1.0)
             1 rng0) =
    Ok (pred_x0, pred_x0).
Proof.
  split; [reflexivity |]. split; [lra |].
  apply (get_x_prev_and_pred_x0_last_step stub [1; 2]%R [4; 7]%R 0
           (1 / 2)%R 1%R rng0); [reflexivity | lra].
Defined.

(** ** The timestep embedding: sizes, domain, range *)

(** X10: for a positive [max_period] the embedding of one timestep has
    [2 * (dim // 2)] components whatever [dim] is: an odd [dim] is not
    rejected and gives [dim - 1] components. *)
Theorem timestep_embedding_length (self : Text2Image) (t dim : Z)
    (max_period : R) :
  (0 < max_period)%R ->
  exists emb,
    timestep_embedding self [IZR t] dim max_period = Ok emb /\
    length emb = (2 * Z.to_nat (dim / 2))%nat /\
    (0 <= dim -> dim mod 2 = 1 -> Z.of_nat (length emb) = dim - 1).
Proof.
  intros Hp. eexists. split; [apply timestep_embedding_ok; exact Hp |].
  cbv zeta. rewrite length_app, !length_map, length_seq.
  split; [lia |].
  intros Hdim Hodd.
  pose proof (Z.div_mod dim 2 ltac:(lia)) as Hd. lia.
Qed.

Lemma timestep_embedding_length_witness :
  (0 < 10000)%R /\
  exists emb,
    timestep_embedding stub [IZR 7] 5 10000 = Ok emb /\
    length emb = (2 * Z.to_nat (5 / 2))%nat /\
    (0 <= 5 -> 5 mod 2 = 1 -> Z.of_nat (length emb) = 5 - 1).
Proof.
  split; [lra |]. apply (timestep_embedding_length stub 7 5 10000%R). lra.
Defined.

(** X11: a [max_period] that is zero or negative makes the embedding
    raise [ValueError] (the [math.log] domain error), for every array of
    timesteps and every [dim]. *)
Theorem timestep_embedding_bad_period (self : Text2Image)
    (timesteps : Tensor) (dim : Z) (max_period : R) :
  (max_period <= 0)%R ->
  timestep_embedding self timesteps dim max_period = Raise ValueError.
Proof.
  intros Hp. unfold timestep_embedding, Py.log.
  destruct (Rle_dec max_period 0); [reflexivity | lra].
Qed.

Lemma timestep_embedding_bad_period_witness :
  (0 <= 0)%R /\ timestep_embedding stub [IZR 7] 320 0 = Raise ValueError.
Proof.
  split; [lra |]. apply (timestep_embedding_bad_period stub [IZR 7] 320 0%R). lra.
Defined.






(** ** The noise predictor calls of [get_model_output] *)

Lemma concat_repeat_length {A} (row : list A) (n : nat) :
  length (Np.repeat_rows row n) = (n * length row)%nat.
Proof.
  unfold Np.repeat_rows. induction n as [|n IH]; simpl; [reflexivity |].
  rewrite length_app, IH. reflexivity.
Qed.

Lemma t_emb_length (self : Text2Image) (t : Z) :
  length (t_emb self t) = (batch_size self * 320)%nat.
Proof.
  unfold t_emb. rewrite timestep_embedding_ok by lra. cbv zeta.
  rewrite concat_repeat_length, length_app, !length_map, length_seq.
  change (Z.to_nat (320 / 2)) with 160%nat. lia.
Qed.

Lemma get_model_output_outcome (self : Text2Image) (latent : Tensor) (t : Z)
    (context unconditional_context : Tensor) (scale : R) (g : Rng) :
  let u := diffusion_model self latent (t_emb self t) unconditional_context in
  let c := diffusion_model self latent (t_emb self t) context in
  get_model_output self latent t context unconditional_context scale g =
  {| value := (diff <- T.sub ValueError c u ;;
               T.add ValueError u (T.scale scale diff))%result;
     rng_after := g;
     emitted := [DiffusionCall latent (t_emb self t) unconditional_context;
                 DiffusionCall latent (t_emb self t) context] |}.
Proof.
  intros u c. subst u c. unfold get_model_output, t_emb.
  rewrite timestep_embedding_ok by lra.
  rewrite bind_lift_ok. reflexivity.
Qed.

(** X13: every call of [get_model_output] runs the noise predictor
    exactly twice on the same latent and the same embedding of
    [batch_size * 320] numbers, first with the unconditional context and
    then with the prompt context; it does not touch the random generator,
    whether or not the combination then succeeds. *)
Theorem get_model_output_calls (self : Text2Image) (latent : Tensor) (t : Z)
    (context unconditional_context : Tensor) (scale : R) (g : Rng) :
  let run :=
    get_model_output self latent t context unconditional_context scale g in
  exists emb,
    length emb = (batch_size self * 320)%nat /\
    emitted run = [DiffusionCall latent emb unconditional_context;
                   DiffusionCall latent emb context] /\
    rng_after run = g.
Proof.
  intros run. subst run. exists (t_emb self t).
  rewrite get_model_output_outcome. cbn [emitted rng_after].
  split; [apply t_emb_length |]. split; reflexivity.
Qed.



(** A one-element estimate is broadcast against the other one. *)
Example get_model_output_broadcasts :
  value (get_model_output stub_echo_context [1]%R 1 [3]%R [1; 2]%R 2 rng0)
  = Ok [5; 4]%R.
Proof.
  rewrite get_model_output_outcome. cbn [value].
  change (diffusion_model stub_echo_context [1]%R
            (t_emb stub_echo_context 1) [1; 2]%R) with [1; 2]%R.
  change (diffusion_model stub_echo_context [1]%R
            (t_emb stub_echo_context 1) [3]%R) with [3]%R.
  unfold T.sub, T.add, T.broadcast, T.scale. simpl.
  repeat f_equal; lra.
Qed.

(** ** Whole runs of [generate] *)

Lemma generate_unfold (self : Text2Image) (prompt : string) (n_steps : Z)
    (scale temperature : R) :
  generate self prompt n_steps scale temperature =
  (let inputs := tokenizer self prompt in
   _ <- assert (length inputs <? 77)%nat ;;
   let pos_ids := repeat (map Z.of_nat (seq 0 77)) (batch_size self) in
   let phrase := repeat (pad_phrase inputs) (batch_size self) in
   context <- text_encoder_predict self phrase pos_ids ;;
   unconditional_context <-
     text_encoder_predict self (tokens_unconditional self) pos_ids ;;
   timesteps <- lift (timesteps n_steps) ;;
   _ <- emit (Printed timesteps) ;;
   alphas <- lift (alphas timesteps) ;;
   latent <- tf_random_normal (latent_size self) ;;
   latent <-
     for_each (processing_order timesteps)
       (denoise self context unconditional_context scale temperature
          alphas (alphas_prev alphas))
       latent ;;
   decoded <- decoder_predict self latent ;;
   ret (to_image decoded))%eff.
Proof. reflexivity. Qed.

Lemma bind_outcome {A B} (m : M A) (k : A -> M B) (g : Rng) (a : A) :
  value (m g) = Ok a ->
  bind m k g =
  {| value := value (k a (rng_after (m g)));
     rng_after := rng_after (k a (rng_after (m g)));
     emitted := emitted (m g) ++ emitted (k a (rng_after (m g))) |}.
Proof. intros H. unfold bind. rewrite H. reflexivity. Qed.

Lemma bind_emit {B} (e : event) (k : unit -> M B) (g : Rng) :
  bind (emit e) k g =
  {| value := value (k tt g); rng_after := rng_after (k tt g);
     emitted := e :: emitted (k tt g) |}.
Proof. reflexivity. Qed.

Lemma bind_raise {A B} (m : M A) (k : A -> M B) (g : Rng) (e : exn) :
  value (m g) = Raise e ->
  bind m k g =
  {| value := Raise e; rng_after := rng_after (m g);
     emitted := emitted (m g) |}.
Proof. intros H. unfold bind. rewrite H. reflexivity. Qed.

Lemma count_events_app (p : event -> bool) (l l' : list event) :
  count_events p (l ++ l') = (count_events p l + count_events p l')%nat.
Proof. unfold count_events. rewrite filter_app, length_app. reflexivity. Qed.

Section Loop.
Variable self : Text2Image.
Variables context unconditional_context : Tensor.
Variables scale temperature : R.
Variable al : list Q.
Hypothesis predictor_shape : shape_preserving self.

Lemma denoise_outcome (latent : Tensor) (step : Z * Z) (g : Rng) :
  ready al step ->
  exists latent',
    length latent' = length latent /\
    exists first second,
      denoise self context unconditional_context scale temperature
        al (alphas_prev al) latent step g =
      {| value := Ok latent';
         rng_after := {| gauss := gauss g; cursor := cursor g + length latent |};
         emitted := [Progress (fst step) (snd step);
                     DiffusionCall latent first unconditional_context;
                     DiffusionCall latent second context;
                     NormalDraw (length latent)] |}.
Proof.
  destruct step as [index timestep].
  intros [a_t [a_prev [Hat [Hap [Rt Rp]]]]]. simpl in Hat, Hap.
  set (u := diffusion_model self latent (t_emb self timestep)
              unconditional_context).
  set (c := diffusion_model self latent (t_emb self timestep) context).
  assert (Hu : length u = length latent) by apply predictor_shape.
  assert (Hc : length c = length latent) by apply predictor_shape.
  set (e_t := pointwise (fun uv cv => uv + scale * (cv - uv))%R u c).
  assert (He : length e_t = length latent)
    by (subst e_t; rewrite pointwise_length; congruence).
  pose proof (get_model_output_outcome self latent timestep context
                unconditional_context scale g) as Hout.
  cbv zeta in Hout. fold u c in Hout.
  assert (Hval : (diff <- T.sub ValueError c u ;;
                  T.add ValueError u (T.scale scale diff))%result = Ok e_t).
  { unfold T.sub, T.add, T.scale.
    rewrite broadcast_ok by congruence. cbn [rbind].
    rewrite map_pointwise.
    rewrite broadcast_ok by (rewrite pointwise_length; congruence).
    rewrite pointwise_nest_swap. reflexivity. }
  rewrite Hval in Hout.
  pose proof (get_x_prev_and_pred_x0_outcome self latent e_t index
                (Q2R a_t) (Q2R a_prev) temperature g
                (eq_sym He) Rt Rp) as Hstep.
  eexists. split; [| exists (t_emb self timestep), (t_emb self timestep)].
  2:{ unfold denoise. rewrite bind_emit.
      erewrite bind_outcome by (rewrite Hout; reflexivity).
      rewrite Hout. cbn [value rng_after emitted].
      rewrite Hat, Hap, !bind_lift_ok.
      erewrite bind_outcome by (rewrite Hstep; reflexivity).
      rewrite Hstep. cbn [value rng_after emitted ret app fst snd].
      reflexivity. }
  rewrite pointwise_length by congruence. reflexivity.
Qed.

Lemma denoise_loop (steps : list (Z * Z)) :
  Forall (ready al) steps ->
  forall (latent : Tensor) (g : Rng),
  let run :=
    for_each steps
      (denoise self context unconditional_context scale temperature
         al (alphas_prev al))
      latent g in
  exists final,
    value run = Ok final /\
    length final = length latent /\
    rng_after run =
      {| gauss := gauss g;
         cursor := cursor g + length steps * length latent |} /\
    count_events is_text_encoder_call (emitted run) = 0%nat /\
    count_events is_diffusion_call (emitted run) = (2 * length steps)%nat /\
    count_events is_decoder_call (emitted run) = 0%nat /\
    count_events is_normal_draw (emitted run) = length steps.
Proof.
  induction 1 as [|step steps Hstep _ IH]; intros latent g run; subst run.
  - exists latent. destruct g as [stream pos]. simpl.
    repeat split; try reflexivity. f_equal. lia.
  - destruct (denoise_outcome latent step g Hstep)
      as [latent' [Hlen [first [second Hbody]]]].
    cbn [for_each].
    rewrite (bind_outcome _ _ g latent') by (rewrite Hbody; reflexivity).
    rewrite Hbody. cbn [value rng_after emitted].
    destruct (IH latent' {| gauss := gauss g;
                            cursor := cursor g + length latent |})
      as [final [Hv [Hl [Hr [C1 [C2 [C3 C4]]]]]]].
    exists final.
    rewrite Hv, Hr. cbn [gauss cursor].
    split; [reflexivity |]. split; [congruence |].
    split; [f_equal; rewrite Hlen; simpl; lia |].
    rewrite !count_events_app, C1, C2, C3, C4.
    repeat split; simpl; lia.
Qed.

End Loop.

Lemma bind_text_encoder {B} (self : Text2Image) (tokens pos : list (list Z))
    (k : Tensor -> M B) (g : Rng) :
  bind (text_encoder_predict self tokens pos) k g =
  let run := k (text_encoder self tokens pos) g in
  {| value := value run; rng_after := rng_after run;
     emitted := TextEncoderCall tokens pos :: emitted run |}.
Proof. reflexivity. Qed.

Lemma bind_decoder {B} (self : Text2Image) (latent : Tensor)
    (k : Tensor -> M B) (g : Rng) :
  bind (decoder_predict self latent) k g =
  let run := k (decoder self latent) g in
  {| value := value run; rng_after := rng_after run;
     emitted := DecoderCall latent :: emitted run |}.
Proof. reflexivity. Qed.

Lemma drop_last_In {A} (l : list A) (a : A) :
  In a (Py.drop_last l) -> In a l.
Proof.
  unfold Py.drop_last.
  induction l as [|b [|c l] IH]; simpl in *; intros H; try contradiction.
  destruct H as [-> | H]; [left; reflexivity | right; apply IH; exact H].
Qed.

Lemma coefficient_in_unit (a : Q) :
  (0 < a)%Q -> (a <= 1)%Q -> (0 < Q2R a <= 1)%R.
Proof.
  intros H0 H1. apply Qlt_Rlt in H0. apply Qle_Rle in H1.
  rewrite RMicromega.Q2R_0 in H0. rewrite RMicromega.Q2R_1 in H1. lra.
Qed.

Lemma schedule_ready (n_steps : Z) :
  1 <= n_steps <= 1000 ->
  exists ts al,
    timesteps n_steps = Ok ts /\ alphas ts = Ok al /\
    (0 < length ts)%nat /\
    Forall (ready al) (processing_order ts).
Proof.
  intros Hn.
  destruct (schedule_facts n_steps Hn)
    as [ts [al [Hts [Hal [Hlen [Hne [Hsorted [Hrange Hall]]]]]]]].
  exists ts, al. split; [exact Hts |]. split; [exact Hal |].
  split; [exact Hne |].
  assert (Htable : forall a, In a al -> (0 < a)%Q /\ (a <= 1)%Q).
  { intros a Ha. apply In_nth_error in Ha. destruct Ha as [i Hi].
    assert (Hsome : exists t, nth_error ts i = Some t).
    { destruct (nth_error ts i) as [t|] eqn:Et; [exists t; reflexivity |].
      apply nth_error_None in Et.
      assert (i < length al)%nat by (apply nth_error_Some; congruence). lia. }
    destruct Hsome as [t Et].
    destruct (Forall2_lookup _ _ _ Hall i t Et) as [a' [Ha' Hta]].
    assert (a' = a) by congruence. subst a'.
    destruct (alphas_cumprod_bounds a (nth_error_In _ _ Hta)) as [H0 H1].
    split; [exact H0 | apply Qlt_le_weak; exact H1]. }
  unfold processing_order, Py.reversed. apply Forall_rev.
  apply Forall_forall. intros [index t] Hin.
  apply enumerate_In in Hin. destruct Hin as [H0 Ht].
  assert (Hi : (Z.to_nat index < length ts)%nat)
    by (apply nth_error_Some; congruence).
  destruct (getitem_nonneg al index ltac:(lia)) as [a_t [Hat Eat]].
  assert (Hlp : length (alphas_prev al) = length al).
  { unfold alphas_prev. simpl. rewrite drop_last_length. lia. }
  destruct (getitem_nonneg (alphas_prev al) index ltac:(lia))
    as [a_prev [Hap Eap]].
  exists a_t, a_prev. simpl.
  split; [exact Eat |]. split; [exact Eap |]. split.
  - destruct (Htable a_t (nth_error_In _ _ Hat)).
    apply coefficient_in_unit; assumption.
  - apply nth_error_In in Hap. destruct Hap as [<- | Hap].
    + apply coefficient_in_unit; [reflexivity | unfold Qle; simpl; lia].
    + destruct (Htable a_prev (drop_last_In _ _ Hap)).
      apply coefficient_in_unit; assumption.
Qed.

(** A successful run, described in full. *)
Lemma generate_run (self : Text2Image) (prompt : string) (n_steps : Z)
    (scale temperature : R) (g : Rng) :
  shape_preserving self ->
  (length (tokenizer self prompt) < 77)%nat ->
  1 <= n_steps <= 1000 ->
  let run := generate self prompt n_steps scale temperature g in
  exists ts final,
    timesteps n_steps = Ok ts /\
    (0 < length ts)%nat /\
    length final = latent_size self /\
    value run = Ok (to_image (decoder self final)) /\
    rng_after run =
      {| gauss := gauss g;
         cursor := cursor g + latent_size self
                   + length ts * latent_size self |} /\
    count_events is_text_encoder_call (emitted run) = 2%nat /\
    count_events is_diffusion_call (emitted run) = (2 * length ts)%nat /\
    count_events is_decoder_call (emitted run) = 1%nat /\
    count_events is_normal_draw (emitted run) = S (length ts).
Proof.
  intros Hshape Hlen Hn run. subst run.
  destruct (schedule_ready n_steps Hn) as [ts [al [Hts [Hal [Hne Hready]]]]].
  rewrite generate_unfold. cbv zeta. unfold assert.
  destruct (Nat.ltb_spec (length (tokenizer self prompt)) 77); [| lia].
  rewrite bind_lift_ok, !bind_text_encoder. cbv zeta.
  rewrite Hts, bind_lift_ok, bind_emit, Hal, bind_lift_ok, bind_normal.
  cbv zeta.
  set (noise := map (gauss g) (seq (cursor g) (latent_size self))).
  set (g1 := {| gauss := gauss g; cursor := cursor g + latent_size self |}).
  set (ctx := text_encoder self _ _).
  set (uctx := text_encoder self (tokens_unconditional self) _).
  assert (Hnoise : length noise = latent_size self)
    by (subst noise; rewrite length_map, length_seq; reflexivity).
  destruct (denoise_loop self ctx uctx scale temperature al Hshape
              (processing_order ts) Hready noise g1)
    as [final [Hv [Hl [Hr [C1 [C2 [C3 C4]]]]]]].
  assert (Hsteps : length (processing_order ts) = length ts).
  { unfold processing_order, Py.reversed, Py.enumerate.
    rewrite length_rev, length_combine, length_map, length_seq.
    apply Nat.min_id. }
  rewrite Hsteps in *.
  exists ts, final.
  erewrite bind_outcome by exact Hv.
  rewrite Hr, bind_decoder. cbn [value rng_after emitted ret].
  split; [reflexivity |]. split; [exact Hne |].
  split; [congruence |]. split; [reflexivity |].
  split; [subst g1; cbn [gauss cursor]; rewrite Hnoise; f_equal; lia |].
  change (?a :: ?b :: ?c :: ?d :: ?l) with ([a; b; c; d] ++ l).
  rewrite !count_events_app, C1, C2, C3, C4.
  unfold count_events. repeat split; simpl; lia.
Qed.

Lemma Int_part_byte (r : R) : (0 <= r <= 255)%R -> 0 <= Int_part r <= 255.
Proof.
  intros Hr. unfold Int_part.
  destruct (archimed r) as [Hup Hdown].
  assert (H0 : 0 < up r) by (apply lt_IZR; lra).
  assert (H1 : up r <= 256) by (apply le_IZR; lra).
  lia.
Qed.

Lemma to_image_range (decoded : Tensor) :
  Forall (fun p => 0 <= p <= 255) (to_image decoded).
Proof.
  unfold to_image, T.to_uint8, T.clip.
  apply Forall_forall. intros p Hp.
  apply in_map_iff in Hp. destruct Hp as [r [<- Hr]].
  apply in_map_iff in Hr. destruct Hr as [v [<- _]].
  apply Int_part_byte.
  unfold Rmin, Rmax.
  destruct (Rle_dec v 0); destruct (Rle_dec _ 255); lra.
Qed.

Lemma to_image_length (decoded : Tensor) :
  length (to_image decoded) = length decoded.
Proof.
  unfold to_image, T.to_uint8, T.clip, T.scale_r, T.div_scalar, T.add_scalar.
  rewrite !length_map. reflexivity.
Qed.

Lemma stub_tokens_shape (n : nat) : shape_preserving (stub_tokens n).
Proof. intros latent emb context. reflexivity. Qed.

(** X15: with fewer than 77 prompt tokens, [n_steps] in [1, 1000] and a
    noise predictor that keeps the shape of the latent, [generate] raises
    nothing (in particular no [IndexError] at [n_steps = 1000]) and
    returns an image with one value per element of the decoder output,
    every value in [0, 255]. *)
Theorem generate_returns_image (self : Text2Image) (prompt : string)
    (n_steps : Z) (scale temperature : R) (g : Rng) :
  shape_preserving self ->
  (length (tokenizer self prompt) < 77)%nat ->
  1 <= n_steps <= 1000 ->
  exists final image,
    length final = latent_size self /\
    value (generate self prompt n_steps scale temperature g) = Ok image /\
    length image = length (decoder self final) /\
    Forall (fun p => 0 <= p <= 255) image.
Proof.
  intros Hshape Hlen Hn.
  destruct (generate_run self prompt n_steps scale temperature g
              Hshape Hlen Hn)
    as [ts [final [_ [_ [Hfinal [Hv _]]]]]].
  exists final, (to_image (decoder self final)).
  split; [exact Hfinal |]. split; [exact Hv |].
  split; [apply to_image_length | apply to_image_range].
Qed.

Lemma generate_returns_image_witness :
  shape_preserving (stub_tokens 76) /\
  (length (tokenizer (stub_tokens 76) "a prompt") < 77)%nat /\
  1 <= 1000 <= 1000 /\
  exists final image,
    length final = latent_size (stub_tokens 76) /\
    value (generate (stub_tokens 76) "a prompt" 1000 (15 / 2) 1 rng0)
      = Ok image /\
    length image = length (decoder (stub_tokens 76) final) /\
    Forall (fun p => 0 <= p <= 255) image.
Proof.
  split; [apply stub_tokens_shape |]. split; [simpl; lia |]. split; [lia |].
  apply (generate_returns_image (stub_tokens 76) "a prompt" 1000
           (15 / 2)%R 1%R rng0);
    [apply stub_tokens_shape | simpl; lia | lia].
Defined.

(** X16: in such a run the text encoder is called exactly twice, the
    noise predictor exactly twice per scheduled timestep and the decoder
    exactly once. *)
Theorem generate_model_calls (self : Text2Image) (prompt : string)
    (n_steps : Z) (scale temperature : R) (g : Rng) :
  shape_preserving self ->
  (length (tokenizer self prompt) < 77)%nat ->
  1 <= n_steps <= 1000 ->
  let run := generate self prompt n_steps scale temperature g in
  exists ts,
    timesteps n_steps = Ok ts /\
    count_events is_text_encoder_call (emitted run) = 2%nat /\
    count_events is_diffusion_call (emitted run) = (2 * length ts)%nat /\
    count_events is_decoder_call (emitted run) = 1%nat.
Proof.
  intros Hshape Hlen Hn run. subst run.
  destruct (generate_run self prompt n_steps scale temperature g
              Hshape Hlen Hn)
    as [ts [final [Hts [_ [_ [_ [_ [C1 [C2 [C3 _]]]]]]]]]].
  exists ts. repeat split; assumption.
Qed.

Lemma generate_model_calls_witness :
  shape_preserving (stub_tokens 76) /\
  (length (tokenizer (stub_tokens 76) "a prompt") < 77)%nat /\
  1 <= 25 <= 1000 /\
  let run := generate (stub_tokens 76) "a prompt" 25 (15 / 2) 1 rng0 in
  exists ts,
    timesteps 25 = Ok ts /\
    count_events is_text_encoder_call (emitted run) = 2%nat /\
    count_events is_diffusion_call (emitted run) = (2 * length ts)%nat /\
    count_events is_decoder_call (emitted run) = 1%nat.
Proof.
  split; [apply stub_tokens_shape |]. split; [simpl; lia |]. split; [lia |].
  apply (generate_model_calls (stub_tokens 76) "a prompt" 25
           (15 / 2)%R 1%R rng0);
    [apply stub_tokens_shape | simpl; lia | lia].
Defined.

(** X17: such a run draws from the generator once for the initial latent
    and once more in every step of the loop, each draw being as large as
    the latent: the generator ends [(1 + number of timesteps) *
    latent_size] samples further, on the same stream. *)
Theorem generate_generator_use (self : Text2Image) (prompt : string)
    (n_steps : Z) (scale temperature : R) (g : Rng) :
  shape_preserving self ->
  (length (tokenizer self prompt) < 77)%nat ->
  1 <= n_steps <= 1000 ->
  let run := generate self prompt n_steps scale temperature g in
  exists ts,
    timesteps n_steps = Ok ts /\
    count_events is_normal_draw (emitted run) = (1 + length ts)%nat /\
    gauss (rng_after run) = gauss g /\
    cursor (rng_after run) =
      (cursor g + (1 + length ts) * latent_size self)%nat.
Proof.
  intros Hshape Hlen Hn run. subst run.
  destruct (generate_run self prompt n_steps scale temperature g
              Hshape Hlen Hn)
    as [ts [final [Hts [_ [_ [_ [Hr [_ [_ [_ C4]]]]]]]]]].
  exists ts. rewrite Hr. cbn [gauss cursor].
  split; [exact Hts |]. split; [exact C4 |]. split; [reflexivity | lia].
Qed.

Lemma generate_generator_use_witness :
  shape_preserving (stub_tokens 76) /\
  (length (tokenizer (stub_tokens 76) "a prompt") < 77)%nat /\
  1 <= 25 <= 1000 /\
  let run := generate (stub_tokens 76) "a prompt" 25 (15 / 2) 1 rng0 in
  exists ts,
    timesteps 25 = Ok ts /\
    count_events is_normal_draw (emitted run) = (1 + length ts)%nat /\
    gauss (rng_after run) = gauss rng0 /\
    cursor (rng_after run) =
      (cursor rng0 + (1 + length ts) * latent_size (stub_tokens 76))%nat.
Proof.
  split; [apply stub_tokens_shape |]. split; [simpl; lia |]. split; [lia |].
  apply (generate_generator_use (stub_tokens 76) "a prompt" 25
           (15 / 2)%R 1%R rng0);
    [apply stub_tokens_shape | simpl; lia | lia].
Defined.

(** X18: with an accepted prompt and [n_steps = 0] or [n_steps > 1000],
    [generate] raises [ZeroDivisionError] when it builds the schedule:
    after both text-encoder calls, before any random draw, noise
    prediction or decoding. *)
Theorem generate_bad_n_steps (self : Text2Image) (prompt : string)
    (n_steps : Z) (scale temperature : R) (g : Rng) :
  (length (tokenizer self prompt) < 77)%nat ->
  n_steps = 0 \/ 1000 < n_steps ->
  let pos_ids := repeat (map Z.of_nat (seq 0 77)) (batch_size self) in
  generate self prompt n_steps scale temperature g =
  {| value := Raise ZeroDivisionError;
     rng_after := g;
     emitted :=
       [TextEncoderCall
          (repeat (pad_phrase (tokenizer self prompt)) (batch_size self))
          pos_ids;
        TextEncoderCall (tokens_unconditional self) pos_ids] |}.
Proof.
  intros Hlen Hn pos_ids. subst pos_ids.
  destruct (timesteps_degenerate n_steps) as [Hzero _].
  rewrite generate_unfold. cbv zeta. unfold assert.
  destruct (Nat.ltb_spec (length (tokenizer self prompt)) 77); [| lia].
  rewrite bind_lift_ok, !bind_text_encoder. cbv zeta.
  rewrite (Hzero Hn), bind_lift_raise. reflexivity.
Qed.

Lemma generate_bad_n_steps_witness :
  (length (tokenizer (stub_tokens 76) "a prompt") < 77)%nat /\
  (1001 = 0 \/ 1000 < 1001) /\
  let pos_ids :=
    repeat (map Z.of_nat (seq 0 77)) (batch_size (stub_tokens 76)) in
  generate (stub_tokens 76) "a prompt" 1001 (15 / 2) 1 rng0 =
  {| value := Raise ZeroDivisionError;
     rng_after := rng0;
     emitted :=
       [TextEncoderCall
          (repeat (pad_phrase (tokenizer (stub_tokens 76) "a prompt"))
                  (batch_size (stub_tokens 76)))
          pos_ids;
        TextEncoderCall (tokens_unconditional (stub_tokens 76)) pos_ids] |}.
Proof.
  split; [simpl; lia |]. split; [right; lia |].
  apply (generate_bad_n_steps (stub_tokens 76) "a prompt" 1001
           (15 / 2)%R 1%R rng0); [simpl; lia | right; lia].
Defined.

(** X19: with an accepted prompt and a negative [n_steps] the schedule
    is empty and nothing is rejected: the loop body never runs, the noise
    predictor is never called, and the image returned is the decoding of
    the initial random latent. *)
Theorem generate_negative_n_steps (self : Text2Image) (prompt : string)
    (n_steps : Z) (scale temperature : R) (g : Rng) :
  (length (tokenizer self prompt) < 77)%nat ->
  n_steps < 0 ->
  let pos_ids := repeat (map Z.of_nat (seq 0 77)) (batch_size self) in
  let noise := map (gauss g) (seq (cursor g) (latent_size self)) in
  generate self prompt n_steps scale temperature g =
  {| value := Ok (to_image (decoder self noise));
     rng_after :=
       {| gauss := gauss g; cursor := cursor g + latent_size self |};
     emitted :=
       [TextEncoderCall
          (repeat (pad_phrase (tokenizer self prompt)) (batch_size self))
          pos_ids;
        TextEncoderCall (tokens_unconditional self) pos_ids;
        Printed [];
        NormalDraw (latent_size self);
        DecoderCall noise] |}.
Proof.
  intros Hlen Hn pos_ids noise. subst pos_ids noise.
  destruct (timesteps_degenerate n_steps) as [_ Hneg].
  rewrite generate_unfold. cbv zeta. unfold assert.
  destruct (Nat.ltb_spec (length (tokenizer self prompt)) 77); [| lia].
  rewrite bind_lift_ok, !bind_text_encoder. cbv zeta.
  rewrite (Hneg Hn), bind_lift_ok, bind_emit.
  reflexivity.
Qed.

Lemma generate_negative_n_steps_witness :
  (length (tokenizer (stub_tokens 76) "a prompt") < 77)%nat /\
  -3 < 0 /\
  let pos_ids :=
    repeat (map Z.of_nat (seq 0 77)) (batch_size (stub_tokens 76)) in
  let noise :=
    map (gauss rng0) (seq (cursor rng0) (latent_size (stub_tokens 76))) in
  generate (stub_tokens 76) "a prompt" (-3) (15 / 2) 1 rng0 =
  {| value := Ok (to_image (decoder (stub_tokens 76) noise));
     rng_after :=
       {| gauss := gauss rng0;
          cursor := cursor rng0 + latent_size (stub_tokens 76) |};
     emitted :=
       [TextEncoderCall
          (repeat (pad_phrase (tokenizer (stub_tokens 76) "a prompt"))
                  (batch_size (stub_tokens 76)))
          pos_ids;
        TextEncoderCall (tokens_unconditional (stub_tokens 76)) pos_ids;
        Printed [];
        NormalDraw (latent_size (stub_tokens 76));
        DecoderCall noise] |}.
Proof.
  split; [simpl; lia |]. split; [lia |].
  apply (generate_negative_n_steps (stub_tokens 76) "a prompt" (-3)
           (15 / 2)%R 1%R rng0); [simpl; lia | lia].
Defined.
